(** * AI Thought Evolution Engine

    A shallow embedding of [ai_engine.py] and [ai_engine.working.py]: the
    agent pool, one debate cycle, the run loop and the history dump, with the
    properties of the debate loop proved about them.

    Python's [float] is IEEE 754 binary64 and is modelled by Rocq's primitive
    floats; dictionaries are [gmap]s; the agent list is a [list] whose
    positions stand for the identities of the agent objects.  The random
    number generator, [uuid.uuid4] and the sentence-embedding model are
    outside the repository: they enter as arguments. *)

From Stdlib Require Import ZArith Lia Floats Ascii String DecimalString DecimalNat.
From stdpp Require Import base list strings gmap.

#[local] Set Warnings "-inexact-float".
#[local] Open Scope string_scope.

(* ===================================================================== *)
(** ** Python primitives used by the scripts *)
(* ===================================================================== *)

Module Py.

(** [x < y], [x > y] and [x <= y] on floats, as [float.__lt__] and friends
    decide them (false when either side is a NaN). *)
Definition lt (x y : float) : bool := PrimFloat.ltb x y.
Definition gt (x y : float) : bool := PrimFloat.ltb y x.
Definition le (x y : float) : bool := PrimFloat.leb x y.

(** The builtins [min(a, b)] and [max(a, b)]: the first argument is kept
    unless the second compares strictly below (above) it. *)
Definition min (a b : float) : float := if lt b a then b else a.
Definition max (a b : float) : float := if gt b a then b else a.

(** [random.uniform(a, b)] is [a + (b - a) * self.random()]; [variate] is
    what [self.random()] returned, a float of [0.0, 1.0). *)
Definition uniform (a b variate : float) : float :=
  (a + (b - a) * variate)%float.

Inductive exception : Set := ValueError | IndexError.

Inductive result (A : Type) : Type :=
| Returned (a : A)
| Raised (e : exception).
Arguments Returned {A} a.
Arguments Raised {A} e.

Definition bind {A B : Type} (m : result A) (k : A → result B) : result B :=
  match m with
  | Returned a => k a
  | Raised e => Raised e
  end.

(** [random._randbelow(n)] on the raw draw [r]. *)
Definition randbelow (n r : nat) : nat := r mod n.

(** [random.choice(seq)] is [seq[_randbelow(len(seq))]]; an empty
    sequence raises [IndexError]. *)
Definition choice {A : Type} (seq : list A) (r : nat) : result A :=
  match seq !! randbelow (length seq) r with
  | Some x => Returned x
  | None => Raised IndexError
  end.

(** The two positions [random.sample(population, 2)] selects among [n]
    items: the first anywhere, the second among the [n - 1] remaining
    slots of the pool, whose slot [j1] now holds the last item. *)
Definition sample_positions (n r1 r2 : nat) : nat * nat :=
  let j1 := randbelow n r1 in
  let t := randbelow (n - 1) r2 in
  (j1, if (t =? j1)%nat then n - 1 else t).

(** [random.sample(population, 2)]: [ValueError] when the sample is larger
    than the population.  Each selected object comes with its position in
    the population, which is its identity. *)
Definition sample2 {A : Type} (population : list A) (r1 r2 : nat)
  : result ((nat * A) * (nat * A)) :=
  if (length population <? 2)%nat then Raised ValueError
  else
    let '(j1, j2) := sample_positions (length population) r1 r2 in
    match population !! j1, population !! j2 with
    | Some x, Some y => Returned ((j1, x), (j2, y))
    | _, _ => Raised IndexError
    end.

End Py.

Export Py(result, Returned, Raised, exception, ValueError, IndexError).

(** [result] is an error monad: stdpp's [x ← m; k] sequences two steps and
    a raised exception skips the rest. *)
#[global] Instance result_ret : MRet result := λ A a, Returned a.
#[global] Instance result_bind : MBind result := λ A B k m, Py.bind m k.

(* ===================================================================== *)
(** ** networkx: the undirected graph [nx.Graph] *)
(* ===================================================================== *)

Module Nx.

(** [Graph._adj]: node -> neighbour -> the edge's [weight] attribute.  The
    nodes of the graph are the keys of the outer dictionary. *)
Abbreviation Graph := (gmap string (gmap string float)).

Definition empty : Graph := ∅.

(** The node-adding half of [add_edge]: a node not yet present gets an
    empty neighbour dictionary. *)
Definition add_node (n : string) (G : Graph) : Graph :=
  match G !! n with
  | Some _ => G
  | None => <[n := ∅]> G
  end.

(** [_adj[u][v] = datadict]: the neighbour dictionary of [u] is updated
    in place. *)
Definition set_adj (u v : string) (weight : float) (G : Graph) : Graph :=
  <[u := <[v := weight]> (default ∅ (G !! u))]> G.

(** [G.add_edge(u, v, weight=w)]: both nodes are added when missing, and
    the weight is stored in both directions; an edge already present keeps
    its place and takes the new weight. *)
Definition add_edge (u v : string) (weight : float) (G : Graph) : Graph :=
  set_adj v u weight (set_adj u v weight (add_node v (add_node u G))).

(** [G.degree]: the number of neighbours, a self-loop counted twice. *)
Definition degree (n : string) (nbrs : gmap string float) : nat :=
  size nbrs + (if nbrs !! n is Some _ then 1 else 0).

Definition degree_sum (G : Graph) : nat :=
  map_fold (λ n nbrs s, degree n nbrs + s) 0 G.

(** [G.number_of_edges()], that is [G.size()]: half the sum of the
    degrees. *)
Definition number_of_edges (G : Graph) : nat := degree_sum G / 2.

(** [G[u][v]['weight']], when the edge exists. *)
Definition weight (G : Graph) (u v : string) : option float :=
  G !! u ≫= (.!! v).

Definition has_edge (G : Graph) (u v : string) : bool :=
  bool_decide (is_Some (weight G u v)).

End Nx.

(* ===================================================================== *)
(** ** The data model of the scripts *)
(* ===================================================================== *)

(** [class ThoughtAgent]. *)
Record ThoughtAgent : Type := {
  id : string;
  role : string;
  beliefs : list string;
  adaptability : float
}.

(** [class DebateEngine]; its [model] attribute, the sentence-embedding
    model, is the pair of functions [encode] and [pytorch_cos_sim] below. *)
Record DebateEngine : Type := {
  agents : list ThoughtAgent;
  knowledge_graph : Nx.Graph;
  debate_history : list (string * string)
}.

(** The raw random draws one debate cycle consumes, in program order: two
    for [random.sample], then one for each [random.choice]. *)
Record draws : Set := {
  pick1 : nat;
  pick2 : nat;
  pick_topic : nat;
  pick_stance1 : nat;
  pick_stance2 : nat
}.

Definition ROLES : list string :=
  [ "Rationalist"; "Chaotic"; "Utopian"; "Dystopian";
    "Empiricist"; "Surrealist"; "Nihilist"; "Transhumanist" ].

Definition TOPICS : list string :=
  [ "consciousness"; "free will"; "AI ethics"; "existential risk";
    "simulation theory"; "post-humanism"; "meaning of life" ].

Definition STANCES1 : list string := [ "fundamental"; "illusory"; "dangerous" ].
Definition STANCES2 : list string := [ "emerging"; "irrelevant"; "divine" ].

(** [ThoughtAgent.__init__(role)]; [uuid] is what [str(uuid.uuid4())]
    returned and [u] what [random.uniform(0.3, 0.9)] returned. *)
Definition ThoughtAgent_init (role : string) (uuid : string) (u : float)
  : ThoughtAgent :=
  {| id := uuid; role := role; beliefs := []; adaptability := u |}.

(** [DebateEngine.__init__]: the list comprehension builds one agent per
    role, in order; the [k]-th construction receives the [k]-th identifier
    and the [k]-th uniform draw. *)
Definition DebateEngine_init (uuid4 : nat → string) (uniform : nat → float)
  : DebateEngine :=
  {| agents := imap (λ k r, ThoughtAgent_init r (uuid4 k) (uniform k)) ROLES;
     knowledge_graph := Nx.empty;
     debate_history := [] |}.


(** What a cycle has computed when it reaches the graph update: the two
    sampled agents with their positions in [self.agents], the topic, both
    arguments and their similarity. *)
Record debate : Type := {
  pos1 : nat;
  a1 : ThoughtAgent;
  pos2 : nat;
  a2 : ThoughtAgent;
  topic : string;
  arg1 : string;
  arg2 : string;
  similarity : float
}.

(** [a.beliefs.append(arg)] followed by the assignment of [a.adaptability]. *)
Definition adopt (a : ThoughtAgent) (arg : string) (adapt : float)
  : ThoughtAgent :=
  {| id := id a; role := role a;
     beliefs := beliefs a ++ [arg];
     adaptability := adapt |}.

Section Cycle.

(** The embedding model: [self.model.encode] and
    [util.pytorch_cos_sim(_, _).item()]. *)
Context {tensor : Type}.
Variable encode : string → tensor.
Variable pytorch_cos_sim : tensor → tensor → float.

(** Sampling, argument synthesis and scoring: lines 51-64 of both scripts,
    which differ there in two places only.  [stop] is what the f-strings
    put after the stance word: nothing in [ai_engine.py], a full stop in
    [ai_engine.working.py]; and [ai_engine.working.py] asks [encode] for a
    tensor ([convert_to_tensor=True]), which is left to the model. *)
Definition synthesize (stop : string) (self : DebateEngine) (rnd : draws)
  : result debate :=
  '((i1, x1), (i2, x2)) ← Py.sample2 (agents self) (pick1 rnd) (pick2 rnd) ;
  t ← Py.choice TOPICS (pick_topic rnd) ;
  s1 ← Py.choice STANCES1 (pick_stance1 rnd) ;
  s2 ← Py.choice STANCES2 (pick_stance2 rnd) ;
  let arg1 := role x1 +:+ " argues: " +:+ t +:+ " is " +:+ s1 +:+ stop in
  let arg2 := role x2 +:+ " counters: " +:+ t +:+ " is " +:+ s2 +:+ stop in
  let emb1 := encode arg1 in
  let emb2 := encode arg2 in
  Returned {| pos1 := i1; a1 := x1; pos2 := i2; a2 := x2; topic := t;
              arg1 := arg1; arg2 := arg2;
              similarity := pytorch_cos_sim emb1 emb2 |}.

(** Graph update, agent evolution and history append: lines 65-75 of
    [ai_engine.py], lines 67-77 of [ai_engine.working.py], the same
    statements in both. *)
Definition evolve (self : DebateEngine) (d : debate) : DebateEngine :=
  let kg := Nx.add_edge (arg1 d) (arg2 d) (similarity d) (knowledge_graph self) in
  let agents' :=
    if Py.gt (similarity d) 0.7 then
      <[pos1 d := adopt (a1 d) (arg2 d)
                    (Py.min 1.0 (adaptability (a1 d) + 0.1))]> (agents self)
    else
      <[pos2 d := adopt (a2 d) (arg1 d)
                    (Py.max 0.1 (adaptability (a2 d) - 0.1))]> (agents self)
  in
  {| agents := agents';
     knowledge_graph := kg;
     debate_history := debate_history self ++ [(arg1 d, arg2 d)] |}.

End Cycle.

(** [ai_engine.py]: the cycle runs unguarded. *)
Module AiEngine.
Section Engine.
Context {tensor : Type}.
Variable encode : string → tensor.
Variable pytorch_cos_sim : tensor → tensor → float.

Definition run_debate_cycle (self : DebateEngine) (rnd : draws)
  : result DebateEngine :=
  d ← synthesize encode pytorch_cos_sim "" self rnd ;
  Returned (evolve self d).
End Engine.
End AiEngine.

(** [ai_engine.working.py]: the cycle returns at once when there are fewer
    than two agents (lines 48-49). *)
Module AiEngineWorking.
Section Engine.
Context {tensor : Type}.
Variable encode : string → tensor.
Variable pytorch_cos_sim : tensor → tensor → float.

Definition run_debate_cycle (self : DebateEngine) (rnd : draws)
  : result DebateEngine :=
  if (length (agents self) <? 2)%nat then Returned self
  else
    d ← synthesize encode pytorch_cos_sim "." self rnd ;
    Returned (evolve self d).
End Engine.
End AiEngineWorking.

(** The two scripts, and what their f-strings put after the stance word. *)
Inductive script : Set := ai_engine | ai_engine_working.

Definition stop_of (v : script) : string :=
  match v with
  | ai_engine => ""
  | ai_engine_working => "."
  end.

Section Run.

Context {tensor : Type}.
Variable encode : string → tensor.
Variable pytorch_cos_sim : tensor → tensor → float.

Definition run_debate_cycle (v : script)
  : DebateEngine → draws → result DebateEngine :=
  match v with
  | ai_engine => AiEngine.run_debate_cycle encode pytorch_cos_sim
  | ai_engine_working => AiEngineWorking.run_debate_cycle encode pytorch_cos_sim
  end.

(** The [while] loop of the main block: one cycle per iteration; the
    clock decides how many iterations there are, each with its own random
    draws.  Printing, plotting and sleeping leave the engine as it is. *)
Fixpoint main_loop (v : script) (debate : DebateEngine) (rnds : list draws)
  : result DebateEngine :=
  match rnds with
  | [] => Returned debate
  | rnd :: rest =>
      debate' ← run_debate_cycle v debate rnd;
      main_loop v debate' rest
  end.

(** The script from its first line to the end of the loop. *)
Definition run (v : script) (uuid4 : nat → string) (uniform : nat → float)
    (rnds : list draws) : result DebateEngine :=
  main_loop v (DebateEngine_init uuid4 uniform) rnds.

End Run.

(** The line feed ["\n"]. *)
Definition LF : string := String "010"%char "".

(** The history dump: one [f.write] per entry, in order. *)
Definition write_history (debate_history : list (string * string)) : string :=
  foldr (λ entry file, entry.1 +:+ LF +:+ entry.2 +:+ LF +:+ LF +:+ file)
        "" debate_history.

(* ===================================================================== *)
(** ** Definitions that follow the specification's words *)
(* ===================================================================== *)

(** The argument templates as the specification words them: the parts,
    separated by single spaces. *)
Definition spec_argument1 (role topic stance : string) : string :=
  role +:+ " " +:+ "argues:" +:+ " " +:+ topic +:+ " " +:+ "is" +:+ " " +:+ stance.

Definition spec_argument2 (role topic stance : string) : string :=
  role +:+ " " +:+ "counters:" +:+ " " +:+ topic +:+ " " +:+ "is" +:+ " " +:+ stance.

(** Modelled from the spec: the reader of the history file.  The repository
    only writes [debate_history.txt]; the specification describes reading
    it back as "two non-blank lines per block, separated by blank lines".
    [lines] splits the text at its line feeds. *)
Fixpoint lines (text : string) : list string :=
  match text with
  | "" => [""]
  | String c rest =>
      if Ascii.eqb c "010"%char then "" :: lines rest
      else match lines rest with
           | l :: ls => String c l :: ls
           | [] => [String c ""]
           end
  end.

(** Modelled from the spec: a blank line holds white space only. *)
Fixpoint blank (line : string) : bool :=
  match line with
  | "" => true
  | String c rest => Ascii.is_space c && blank rest
  end.

(** Modelled from the spec: the blocks of the file, that is the maximal
    runs of non-blank lines; [cur] is the block being read. *)
Fixpoint blocks (cur : list string) (ls : list string) : list (list string) :=
  match ls with
  | [] => match cur with [] => [] | _ => [cur] end
  | l :: rest =>
      if blank l then
        match cur with
        | [] => blocks [] rest
        | _ => cur :: blocks [] rest
        end
      else blocks (cur ++ [l]) rest
  end.

(** Modelled from the spec: a block of exactly two lines is one history
    entry; any other block makes the file unreadable. *)
Definition block_pair (block : list string) : option (string * string) :=
  match block with
  | [x; y] => Some (x, y)
  | _ => None
  end.

(** Modelled from the spec: the history read back from the file. *)
Definition parse_history (text : string) : option (list (string * string)) :=
  mapM block_pair (blocks [] (lines text)).

(* ===================================================================== *)
(** ** Vocabulary of the statements *)
(* ===================================================================== *)

(** [lo <= x <= hi] on floats. *)
Definition between (lo hi x : float) : Prop :=
  Py.le lo x = true ∧ Py.le x hi = true.

(** The agent at position [i] has a different adaptability in [self']. *)
Definition adaptability_changed (self self' : DebateEngine) (i : nat) : Prop :=
  adaptability <$> agents self' !! i ≠ adaptability <$> agents self !! i.

Definition exactly_one_adaptability_changes
    (self self' : DebateEngine) (d : debate) : Prop :=
  (adaptability_changed self self' (pos1 d)
     ∧ ¬ adaptability_changed self self' (pos2 d))
  ∨ (¬ adaptability_changed self self' (pos1 d)
     ∧ adaptability_changed self self' (pos2 d)).

(** The agent at [i] took [arg] as its newest belief and [adapt] as its
    adaptability; identity and role are as before. *)
Definition adopted (self self' : DebateEngine) (i : nat) (arg : string)
    (adapt : float → float) : Prop :=
  ∃ a, agents self !! i = Some a
     ∧ agents self' !! i
       = Some {| id := id a; role := role a;
                 beliefs := beliefs a ++ [arg];
                 adaptability := adapt (adaptability a) |}.

(** Every agent except the one at [i] is the same object with the same
    contents. *)
Definition others_unchanged (self self' : DebateEngine) (i : nat) : Prop :=
  length (agents self') = length (agents self)
  ∧ ∀ j, j ≠ i → agents self' !! j = agents self !! j.

(** The "adopt and increase" and the "decrease" outcomes of a cycle. *)
Definition adopt_and_increase (self self' : DebateEngine) (d : debate) : Prop :=
  adopted self self' (pos1 d) (arg2 d) (λ x, Py.min 1.0 (x + 0.1))
  ∧ others_unchanged self self' (pos1 d).

Definition adopt_and_decrease (self self' : DebateEngine) (d : debate) : Prop :=
  adopted self self' (pos2 d) (arg1 d) (λ x, Py.max 0.1 (x - 0.1))
  ∧ others_unchanged self self' (pos2 d).

(** Stub models for the examples: the embedding is the text itself and the
    similarity a constant. *)
Definition stub_encode (text : string) : string := text.
Definition stub_cos_sim (c : float) (_ _ : string) : float := c.

(** A text without line feed, and a line a reader of the history file can
    take for an argument: one line, not blank. *)
Fixpoint no_lf (s : string) : bool :=
  match s with
  | "" => true
  | String c rest => negb (Ascii.eqb c "010"%char) && no_lf rest
  end.

Definition argument_line (s : string) : Prop :=
  no_lf s = true ∧ blank s = false.

(** What [synthesize] returns, in terms of the engine it was called on: the
    two agents are those at two different positions of [self.agents], and
    the arguments are the filled-in templates, scored by the model. *)
Record synthesized {tensor : Type} (encode : string → tensor)
    (pytorch_cos_sim : tensor → tensor → float)
    (stop : string) (self : DebateEngine) (d : debate) : Prop := {
  syn_a1 : agents self !! pos1 d = Some (a1 d);
  syn_a2 : agents self !! pos2 d = Some (a2 d);
  syn_distinct : pos1 d ≠ pos2 d;
  syn_topic : topic d ∈ TOPICS;
  syn_arg1 : ∃ s1, s1 ∈ STANCES1
    ∧ arg1 d = role (a1 d) +:+ " argues: " +:+ topic d +:+ " is " +:+ s1 +:+ stop;
  syn_arg2 : ∃ s2, s2 ∈ STANCES2
    ∧ arg2 d = role (a2 d) +:+ " counters: " +:+ topic d +:+ " is " +:+ s2 +:+ stop;
  syn_similarity :
    similarity d = pytorch_cos_sim (encode (arg1 d)) (encode (arg2 d))
}.

(** What holds of the engine between two cycles of a run: the roles are
    the eight of the constructor, every history entry is a pair of two
    different argument lines, the graph has no self-loop and no more edges
    than the history has entries. *)
Record engine_inv (s : DebateEngine) : Prop := {
  inv_roles : role <$> agents s = ROLES;
  inv_history :
    Forall (λ e, argument_line e.1 ∧ argument_line e.2 ∧ e.1 ≠ e.2)
           (debate_history s);
  inv_no_loop : ∀ n, Nx.weight (knowledge_graph s) n n = None;
  inv_edges :
    (Nx.number_of_edges (knowledge_graph s) ≤ length (debate_history s))%nat
}.

(** Every agent's adaptability lies in the clamping range. *)
Definition clamped (s : DebateEngine) : Prop :=
  Forall (λ a, between 0.1 1.0 (adaptability a)) (agents s).

(** Two results of [synthesize] agree on everything but the agent records
    they carry: same positions, topic, arguments and similarity, or the
    same exception. *)
Definition same_debate (r1 r2 : result debate) : Prop :=
  match r1, r2 with
  | Returned d1, Returned d2 =>
      pos1 d1 = pos1 d2 ∧ pos2 d1 = pos2 d2 ∧ topic d1 = topic d2
      ∧ arg1 d1 = arg1 d2 ∧ arg2 d1 = arg2 d2
      ∧ similarity d1 = similarity d2
  | Raised e1, Raised e2 => e1 = e2
  | _, _ => False
  end.

(** The arguments of a cycle are exactly the specification's templates,
    with nothing before, between or after the parts. *)
Definition as_specified (d : debate) : Prop :=
  (∃ s1, s1 ∈ STANCES1
         ∧ arg1 d = spec_argument1 (role (a1 d)) (topic d) s1)
  ∧ (∃ s2, s2 ∈ STANCES2
           ∧ arg2 d = spec_argument2 (role (a2 d)) (topic d) s2).

(** Concrete inputs for the examples.  [rnd_zero] makes [random.sample]
    return the first and the last agent, and every [random.choice] its
    first item. *)
Definition rnd_zero : draws :=
  {| pick1 := 0; pick2 := 0; pick_topic := 0;
     pick_stance1 := 0; pick_stance2 := 0 |}.

Definition rnd_other : draws :=
  {| pick1 := 3; pick2 := 9; pick_topic := 8;
     pick_stance1 := 4; pick_stance2 := 5 |}.

(** Identifiers ["0"], ["1"], ... for the agents of an example. *)
Definition stub_uuid4 (k : nat) : string := String (ascii_of_nat (48 + k)) "".

Definition example_engine (u : float) : DebateEngine :=
  DebateEngine_init stub_uuid4 (λ _, u).

(** An engine with a single agent, and two two-agent engines that agree on
    the roles only. *)
Definition lonely_engine : DebateEngine :=
  {| agents := [ThoughtAgent_init "Rationalist" "0" 0.5];
     knowledge_graph := Nx.empty;
     debate_history := [] |}.

Definition pair_engine_fresh : DebateEngine :=
  {| agents := [ThoughtAgent_init "Rationalist" "0" 0.5;
                ThoughtAgent_init "Chaotic" "1" 0.5];
     knowledge_graph := Nx.empty;
     debate_history := [] |}.

Definition pair_engine_used : DebateEngine :=
  {| agents := [ {| id := "a"; role := "Rationalist";
                    beliefs := ["Chaotic counters: free will is divine"];
                    adaptability := 1.0 |};
                 {| id := "b"; role := "Chaotic";
                    beliefs := [];
                    adaptability := 0.1 |} ];
     knowledge_graph := Nx.empty;
     debate_history := [] |}.

(** Eight identifiers as [str(uuid.uuid4())] returns them, and eight
    variates of [random()]. *)
Definition example_uuid4 (k : nat) : string :=
  default "5819f92c-c317-4dfa-ae29-692dca4a4cc0"
    ([ "3c2b826b-61ac-4f8f-89ec-5a606c9095bb";
       "192e02b6-9d57-44e4-8c03-9f764ccdef70";
       "0d2dd07b-31db-4c71-89f0-c7da23060648";
       "213d9153-fa61-44bf-949a-cc07197df3f7";
       "09be8cb8-2cd0-434d-841d-73eb060e080f";
       "c70ebe37-bb3e-4df0-b369-263170781287";
       "8e304f1c-f7ef-4a2e-a70f-d3fc58e454cd" ] !! k).

Definition example_random (k : nat) : float :=
  default 0.875%float
    ([ 0; 0.5; 0.25; 0.75; 0.125; 0.625; 0.375 ]%float !! k).



(* ===================================================================== *)
(** ** The main blocks of the scripts *)
(* ===================================================================== *)

(** [str(n)] for a non-negative [int]: its decimal digits. *)
Definition str_int (n : nat) : string :=
  NilEmpty.string_of_uint (Nat.to_uint n).

(** What a script leaves outside the engine: the text printed so far, the
    graphs handed to the plotting library by [visualize], one per figure
    shown, and the files. *)
Record world : Type := {
  stdout : string;
  figures : list Nx.Graph;
  files : gmap string string
}.

(** [print(line)]. *)
Definition print (line : string) (w : world) : world :=
  {| stdout := stdout w +:+ line +:+ LF;
     figures := figures w;
     files := files w |}.

(** [open(path, 'w')]: the file is created, or emptied when it exists. *)
Definition fopen_w (path : string) (w : world) : world :=
  {| stdout := stdout w;
     figures := figures w;
     files := <[path := ""]> (files w) |}.

(** [f.write(text)] on the file opened at [path]. *)
Definition fwrite (path text : string) (w : world) : world :=
  {| stdout := stdout w;
     figures := figures w;
     files := <[path := default "" (files w !! path) +:+ text]> (files w) |}.

(** [DebateEngine.visualize]: it lays out and draws [self.knowledge_graph]
    and shows the figure; the engine is read, not written. *)
Definition visualize (self : DebateEngine) (w : world) : world :=
  {| stdout := stdout w;
     figures := figures w ++ [knowledge_graph self];
     files := files w |}.

(** The line both scripts report progress with. *)
Definition progress_line (count : nat) : string :=
  "Debates completed: " +:+ str_int count.

(** The history dump as the scripts perform it: the file is opened for
    writing and receives one [f.write] per entry. *)
Definition dump_history (debate : DebateEngine) (w : world) : world :=
  foldl (λ w entry,
           fwrite "debate_history.txt"
                  (entry.1 +:+ LF +:+ entry.2 +:+ LF +:+ LF) w)
        (fopen_w "debate_history.txt" w)
        (debate_history debate).

(** The main block of [ai_engine.py] (lines 87-103). *)
Module AiEngineMain.
Section Main.
Context {tensor : Type}.
Variable encode : string → tensor.
Variable pytorch_cos_sim : tensor → tensor → float.

(** The [while] loop: after each cycle, every hundredth debate is reported
    on the standard output and the graph is drawn. *)
Fixpoint loop (debate : DebateEngine) (w : world) (rnds : list draws)
  : world * result DebateEngine :=
  match rnds with
  | [] => (w, Returned debate)
  | rnd :: rest =>
      match AiEngine.run_debate_cycle encode pytorch_cos_sim debate rnd with
      | Raised e => (w, Raised e)
      | Returned debate' =>
          let w' :=
            if (length (debate_history debate') mod 100 =? 0)%nat then
              visualize debate'
                (print (progress_line (length (debate_history debate'))) w)
            else w in
          loop debate' w' rest
      end
  end.

Definition main (uuid4 : nat → string) (uniform : nat → float)
    (rnds : list draws) (w : world) : world * result DebateEngine :=
  let debate := DebateEngine_init uuid4 uniform in
  match loop debate w rnds with
  | (w, Raised e) => (w, Raised e)
  | (w, Returned debate) =>
      let w := print "Final Knowledge Graph:" w in
      let w := visualize debate w in
      (dump_history debate w, Returned debate)
  end.
End Main.
End AiEngineMain.

(** The main block of [ai_engine.working.py] (lines 91-118). *)
Module AiEngineWorkingMain.
Section Main.
Context {tensor : Type}.
Variable encode : string → tensor.
Variable pytorch_cos_sim : tensor → tensor → float.

(** The [while] loop, inside the [with] block of the progress log: every
    hundredth debate is written to the log. *)
Fixpoint loop (debate : DebateEngine) (w : world) (rnds : list draws)
  : world * result DebateEngine :=
  match rnds with
  | [] => (w, Returned debate)
  | rnd :: rest =>
      match AiEngineWorking.run_debate_cycle encode pytorch_cos_sim debate rnd with
      | Raised e => (w, Raised e)
      | Returned debate' =>
          let debate_count := length (debate_history debate') in
          let w' :=
            if (debate_count mod 100 =? 0)%nat then
              fwrite "debate_progress.log"
                     (progress_line debate_count +:+ LF) w
            else w in
          loop debate' w' rest
      end
  end.

Definition main (uuid4 : nat → string) (uniform : nat → float)
    (rnds : list draws) (w : world) : world * result DebateEngine :=
  let debate := DebateEngine_init uuid4 uniform in
  match loop debate (fopen_w "debate_progress.log" w) rnds with
  | (w, Raised e) => (w, Raised e)
  | (w, Returned debate) =>
      let w := print "Final Knowledge Graph:" w in
      let w := visualize debate w in
      (dump_history debate w, Returned debate)
  end.
End Main.
End AiEngineWorkingMain.



(* ===================================================================== *)
(** ** Vocabulary of the run and of the main blocks *)
(* ===================================================================== *)

(** The two templates of [run_debate_cycle] as functions of their parts. *)
Definition argues_text (stop r t s : string) : string :=
  r +:+ " argues: " +:+ t +:+ " is " +:+ s +:+ stop.

Definition counters_text (stop r t s : string) : string :=
  r +:+ " counters: " +:+ t +:+ " is " +:+ s +:+ stop.

(** Every pair of arguments a cycle of the eight-agent engine can record:
    two different roles, one topic, one stance word of each set. *)
Definition possible_entries (stop : string) : list (string * string) :=
  r1 ← ROLES; r2 ← ROLES;
  if decide (r1 = r2) then []
  else t ← TOPICS; s1 ← STANCES1; s2 ← STANCES2;
       [(argues_text stop r1 t s1, counters_text stop r2 t s2)].

(** [b] is an argument or a counter-argument synthesized for role [r]. *)
Definition authored_by (stop r b : string) : Prop :=
  ∃ t s, t ∈ TOPICS
    ∧ ((s ∈ STANCES1 ∧ b = argues_text stop r t s)
       ∨ (s ∈ STANCES2 ∧ b = counters_text stop r t s)).

(** The number of different entries of a history. *)
Definition distinct_entries (h : list (string * string)) : nat :=
  size (list_to_set h : gset (string * string)).

(** The first character of a text. *)
Definition head_char (s : string) : option ascii :=
  match s with
  | String c _ => Some c
  | EmptyString => None
  end.

(** What else holds of the engine between two cycles of a run of script
    [v] that started from [uuid4] and [uniform]: who the agents are, where
    their beliefs come from, and what the graph holds. *)
Record run_inv {tensor : Type} (encode : string → tensor)
    (pytorch_cos_sim : tensor → tensor → float) (v : script)
    (uuid4 : nat → string) (uniform : nat → float) (s : DebateEngine)
  : Prop := {
  rinv_agent : ∀ k a, agents s !! k = Some a →
    id a = uuid4 k ∧ (beliefs a = [] → adaptability a = uniform k);
  rinv_beliefs :
    sum_list (length ∘ beliefs <$> agents s) = length (debate_history s);
  rinv_author : ∀ a b, a ∈ agents s → b ∈ beliefs a →
    (∃ e, e ∈ debate_history s ∧ (b = e.1 ∨ b = e.2))
    ∧ ∃ r, r ∈ ROLES ∧ r ≠ role a ∧ authored_by (stop_of v) r b;
  rinv_entries :
    Forall (λ e, e ∈ possible_entries (stop_of v)) (debate_history s);
  rinv_edges : ∀ x y,
    is_Some (Nx.weight (knowledge_graph s) x y)
    ↔ (x, y) ∈ debate_history s ∨ (y, x) ∈ debate_history s;
  rinv_weight : ∀ x y, (x, y) ∈ debate_history s →
    Nx.weight (knowledge_graph s) x y
      = Some (pytorch_cos_sim (encode x) (encode y))
    ∧ Nx.weight (knowledge_graph s) y x
      = Some (pytorch_cos_sim (encode x) (encode y));
  rinv_degree :
    Nx.degree_sum (knowledge_graph s)
    = (2 * distinct_entries (debate_history s))%nat;
  rinv_nodes : ∀ n,
    n ∈ dom (knowledge_graph s)
    ↔ ∃ m, (n, m) ∈ debate_history s ∨ (m, n) ∈ debate_history s
}.



(* ===================================================================== *)
(** ** Binary64 arithmetic around the clamping bounds *)
(* ===================================================================== *)

(** The primitive operations are specified by [SpecFloat]; the facts below
    follow the rounding of [a + 0.1] and [a - 0.1] for [a] between 0.1 and
    1.0 through that specification. *)

Section FloatFacts.
#[local] Open Scope Z_scope.

Lemma digits2_pos_size p : digits2_pos p = Pos.size p.
Proof. induction p as [p IH|p IH|]; simpl; congruence. Qed.

Lemma digits2_pos_bounds p :
  2 ^ (Zpos (digits2_pos p) - 1) ≤ Zpos p < 2 ^ Zpos (digits2_pos p).
Proof.
  rewrite digits2_pos_size. split.
  - pose proof (Pos.size_le p) as H.
    apply Pos2Z.pos_le_pos in H. rewrite Pos2Z.inj_pow in H.
    replace (Zpos (Pos.size p)) with (Z.succ (Zpos (Pos.size p) - 1)) in H by lia.
    rewrite Z.pow_succ_r in H by lia. lia.
  - pose proof (Pos.size_gt p) as H.
    apply Pos2Z.pos_lt_pos in H. by rewrite Pos2Z.inj_pow in H.
Qed.

(** digits determined by bounds *)
Lemma digits2_pos_unique p d :
  2 ^ (d - 1) ≤ Zpos p < 2 ^ d → Zpos (digits2_pos p) = d.
Proof.
  intros [Hl Hu]. pose proof (digits2_pos_bounds p) as [Hl' Hu'].
  destruct (Z.lt_trichotomy (Zpos (digits2_pos p)) d) as [Hlt|[Heq|Hgt]]; [|done|].
  - assert (2 ^ Zpos (digits2_pos p) ≤ 2 ^ (d - 1)) by (apply Z.pow_le_mono_r; lia). lia.
  - assert (0 ≤ d ∨ d < 0) as [Hd|Hd] by lia.
    + assert (2 ^ d ≤ 2 ^ (Zpos (digits2_pos p) - 1)) by (apply Z.pow_le_mono_r; lia). lia.
    + rewrite Z.pow_neg_r in Hu by lia. lia.
Qed.

Lemma shr_m_shr_1 r : 0 ≤ shr_m r → shr_m (shr_1 r) = shr_m r / 2.
Proof.
  destruct r as [m r s]; simpl. intros Hm.
  destruct m as [|[p|p|]|p]; cbn [shr_m]; [done| | |done|lia].
  - apply Z.div_unique with (r := 1); lia.
  - apply Z.div_unique with (r := 0); lia.
Qed.

Lemma shr_m_iter p : ∀ r, 0 ≤ shr_m r →
  shr_m (SpecFloat.iter_pos shr_1 p r) = shr_m r / 2 ^ Zpos p.
Proof.
  assert (Hnn : ∀ r, 0 ≤ shr_m r → 0 ≤ shr_m (shr_1 r)).
  { intros r Hr. rewrite shr_m_shr_1 by done. apply Z.div_pos; lia. }
  induction p as [p IH|p IH|]; intros r Hr; simpl.
  - rewrite IH, IH, shr_m_shr_1 by (try rewrite IH; try apply Z.div_pos; auto; lia).
    replace (Zpos p~1) with (1 + Zpos p + Zpos p) by lia.
    rewrite !Z.pow_add_r by lia. rewrite Z.pow_1_r.
    rewrite !Z.div_div by lia. f_equal. lia.
  - rewrite IH, IH by (try rewrite IH; try apply Z.div_pos; auto; lia).
    replace (Zpos p~0) with (Zpos p + Zpos p) by lia.
    rewrite !Z.pow_add_r by lia.
    rewrite !Z.div_div by lia. done.
  - rewrite shr_m_shr_1 by done. done.
Qed.

Lemma rne_bounds q l : q ≤ round_nearest_even q l ≤ q + 1.
Proof.
  destruct l as [|[]]; simpl; try lia. destruct (Z.even q); lia.
Qed.

Lemma Zdigits2_pos m : 0 < m → ∃ p, m = Zpos p ∧ Zdigits2 m = Zpos (digits2_pos p).
Proof. destruct m as [|p|p]; try lia. intros _. by exists p. Qed.

(** One normalising shift of a positive mantissa, in the normal range. *)
Lemma shr_fexp_exact m e :
  0 < m → -1074 ≤ Zdigits2 m + e - 53 →
  ∃ r e', shr_fexp 53 1024 m e loc_Exact = (r, e')
    ∧ e' = Z.max e (Zdigits2 m + e - 53)
    ∧ shr_m r = m / 2 ^ Z.max 0 (Zdigits2 m - 53).
Proof.
  intros Hm Hn. unfold shr_fexp, fexp, SpecFloat.emin, shr.
  set (d := Zdigits2 m) in *.
  replace (Z.max (d + e - 53) (3 - 1024 - 53) - e) with (d - 53) by lia.
  destruct (d - 53) as [|k|k] eqn:Hk.
  - eexists _, _. split; [done|]. split; [lia|].
    simpl. by rewrite Z.div_1_r.
  - eexists _, _. split; [done|]. split; [lia|].
    rewrite shr_m_iter by (simpl; lia). simpl shr_m.
    by replace (Z.max 0 (Z.pos k)) with (Z.pos k) by lia.
  - eexists _, _. split; [done|]. split; [lia|].
    simpl. replace (Z.max 0 (Z.neg k)) with 0 by lia. by rewrite Z.div_1_r.
Qed.

Lemma Zdigits2_bounds m : 0 < m → 2 ^ (Zdigits2 m - 1) ≤ m < 2 ^ Zdigits2 m.
Proof.
  intros (p & -> & ->)%Zdigits2_pos. apply digits2_pos_bounds.
Qed.

Lemma Zdigits2_unique m d : 2 ^ (d - 1) ≤ m < 2 ^ d → 0 < m → Zdigits2 m = d.
Proof.
  intros Hb (p & -> & ->)%Zdigits2_pos. by apply digits2_pos_unique.
Qed.

(** Rounding a positive mantissa of at least 53 bits: the result is a
    normal number, one of the two neighbours of the exact quotient. *)
Lemma binary_round_aux_shape M e :
  2 ^ 52 ≤ M → -1074 ≤ Zdigits2 M + e - 53 → Zdigits2 M + e - 52 ≤ 971 →
  ∃ m' e', binary_round_aux 53 1024 false M e loc_Exact = S754_finite false m' e'
    ∧ ((e' = Zdigits2 M + e - 53
        ∧ M / 2 ^ (Zdigits2 M - 53) ≤ Zpos m' ≤ M / 2 ^ (Zdigits2 M - 53) + 1
        ∧ Zpos m' < 2 ^ 53)
       ∨ (e' = Zdigits2 M + e - 52 ∧ Zpos m' = 2 ^ 52
          ∧ M / 2 ^ (Zdigits2 M - 53) = 2 ^ 53 - 1)).
Proof.
  intros HM Hlo Hhi.
  assert (0 < M) as Hpos by (change (2 ^ 52) with 4503599627370496 in HM; lia).
  pose proof (Zdigits2_bounds M Hpos) as [Hdl Hdu].
  set (d := Zdigits2 M) in *.
  assert (53 ≤ d) as Hd.
  { destruct (Z.le_gt_cases 53 d) as [|Hlt]; [done|].
    assert (2 ^ d ≤ 2 ^ 52) by (apply Z.pow_le_mono_r; lia). lia. }
  set (q := M / 2 ^ (d - 53)).
  assert (2 ^ 52 ≤ q < 2 ^ 53) as [Hql Hqu].
  { assert (0 < 2 ^ (d - 53)) by (apply Z.pow_pos_nonneg; lia).
    split.
    - apply Z.div_le_lower_bound; [done|].
      rewrite <- Z.pow_add_r by lia. by replace (d - 53 + 52) with (d - 1) by lia.
    - apply Z.div_lt_upper_bound; [done|].
      rewrite <- Z.pow_add_r by lia. by replace (d - 53 + 53) with d by lia. }
  unfold binary_round_aux.
  destruct (shr_fexp_exact M e Hpos Hlo) as (r1 & e1 & -> & He1 & Hr1).
  fold d in He1, Hr1. replace (Z.max 0 (d - 53)) with (d - 53) in Hr1 by lia.
  fold q in Hr1. rewrite Hr1.
  pose proof (rne_bounds q (loc_of_shr_record r1)) as Hrne.
  set (m1 := round_nearest_even q (loc_of_shr_record r1)) in *.
  change (2 ^ 52) with 4503599627370496 in *.
  change (2 ^ 53) with 9007199254740992 in *.
  assert (m1 < 9007199254740992 ∨ m1 = 9007199254740992) as [Hm1|Hm1] by lia.
  - assert (Zdigits2 m1 = 53) as Hd1.
    { apply Zdigits2_unique; [|lia]. simpl. lia. }
    destruct (shr_fexp_exact m1 e1) as (r2 & e2 & -> & He2 & Hr2); [lia|lia|].
    rewrite Hd1 in He2, Hr2. simpl in Hr2. rewrite Z.div_1_r in Hr2.
    rewrite Hr2. destruct m1 as [|p1|p1]; try lia.
    replace (e2 <=? 1024 - 53)%Z with true by (symmetry; apply Z.leb_le; lia).
    exists p1, e2. split; [done|]. left. lia.
  - assert (Zdigits2 m1 = 54) as Hd1 by (by rewrite Hm1).
    destruct (shr_fexp_exact m1 e1) as (r2 & e2 & -> & He2 & Hr2); [lia|lia|].
    rewrite Hd1 in He2, Hr2. rewrite Hm1 in Hr2.
    change (9007199254740992 / 2 ^ Z.max 0 (54 - 53)) with 4503599627370496 in Hr2.
    rewrite Hr2.
    replace (e2 <=? 1024 - 53)%Z with true by (symmetry; apply Z.leb_le; lia).
    eexists _, e2. split; [done|]. right. lia.
Qed.

(** A 53-bit mantissa in the normal range is left as it is. *)
Lemma binary_round_aux_exact M e :
  Zpos (digits2_pos M) = 53 → -1074 ≤ e ≤ 971 →
  binary_round_aux 53 1024 false (Zpos M) e loc_Exact = S754_finite false M e.
Proof.
  intros Hd He. unfold binary_round_aux, shr_fexp. cbn [Zdigits2].
  rewrite Hd. unfold fexp, SpecFloat.emin.
  replace (Z.max (53 + e - 53) (3 - 1024 - 53) - e) with 0 by lia.
  cbn [shr shr_record_of_loc shr_m loc_of_shr_record round_nearest_even Zdigits2].
  rewrite Hd.
  replace (Z.max (53 + e - 53) (3 - 1024 - 53) - e) with 0 by lia.
  cbn [shr shr_record_of_loc shr_m].
  by replace (e <=? 1024 - 53) with true by (symmetry; apply Z.leb_le; lia).
Qed.

Lemma iter_xO_value m k : Zpos (Pos.iter xO m k) = Zpos m * 2 ^ Zpos k.
Proof.
  induction k as [|k IH] using Pos.peano_ind.
  - simpl. lia.
  - rewrite Pos.iter_succ, Pos2Z.inj_succ, Z.pow_succ_r by lia.
    rewrite Pos2Z.inj_xO, IH. lia.
Qed.

Lemma shl_align_value m ex ex' :
  ex' ≤ ex → Zpos (fst (shl_align m ex ex')) = Zpos m * 2 ^ (ex - ex').
Proof.
  intros Hle. unfold shl_align.
  destruct (ex' - ex) as [|k|k] eqn:Hk; try lia.
  - replace (ex - ex') with 0 by lia. simpl. lia.
  - cbn [fst]. rewrite iter_xO_value. rewrite <- Pos2Z.opp_pos in Hk.
    f_equal. f_equal. lia.
Qed.

(** [binary_round] on a positive mantissa whose result is a normal number:
    short mantissas are shifted left exactly, long ones are rounded. *)
Lemma binary_round_shape M e :
  let d := Zpos (digits2_pos M) in
  -1074 ≤ d + e - 53 → d + e - 52 ≤ 971 →
  ∃ m' e', binary_round 53 1024 false M e = S754_finite false m' e'
    ∧ ((d ≤ 53 ∧ e' = d + e - 53 ∧ Zpos m' = Zpos M * 2 ^ (53 - d))
       ∨ (53 < d ∧ e' = d + e - 53
          ∧ Zpos M / 2 ^ (d - 53) ≤ Zpos m' ≤ Zpos M / 2 ^ (d - 53) + 1
          ∧ Zpos m' < 2 ^ 53)
       ∨ (53 < d ∧ e' = d + e - 52 ∧ Zpos m' = 2 ^ 52
          ∧ Zpos M / 2 ^ (d - 53) = 2 ^ 53 - 1)).
Proof.
  intros d Hlo Hhi. unfold binary_round, fexp, SpecFloat.emin.
  fold d. replace (Z.max (d + e - 53) (3 - 1024 - 53)) with (d + e - 53) by lia.
  pose proof (digits2_pos_bounds M) as HM. fold d in HM.
  assert (Zpos (digits2_pos M) = d) as HdM by done.
  assert (0 < d) as Hd0 by done. clearbody d.
  destruct (Z.lt_trichotomy d 53) as [Hlt|[Heq|Hgt]].
  - unfold shl_align. destruct (d + e - 53 - e) as [|k|k] eqn:Hk; try lia.
    rewrite <- Pos2Z.opp_pos in Hk.
    assert (Zpos (digits2_pos (Pos.iter xO M k)) = 53) as Hd'.
    { apply digits2_pos_unique. rewrite iter_xO_value.
      assert (2 ^ (53 - 1) = 2 ^ (d - 1) * 2 ^ Zpos k) as ->
        by (rewrite <- Z.pow_add_r by lia; f_equal; lia).
      assert (2 ^ 53 = 2 ^ d * 2 ^ Zpos k) as ->
        by (rewrite <- Z.pow_add_r by lia; f_equal; lia).
      assert (0 < 2 ^ Zpos k) by (apply Z.pow_pos_nonneg; lia). nia. }
    rewrite (binary_round_aux_exact _ _ ltac:(eassumption)) by lia.
    eexists _, _. split; [done|]. left.
    rewrite iter_xO_value. repeat split; [lia..|]. f_equal. f_equal. lia.
  - unfold shl_align. replace (d + e - 53 - e) with 0 by lia.
    rewrite binary_round_aux_exact by lia.
    eexists _, _. split; [done|]. left.
    replace (53 - d) with 0 by lia. simpl. lia.
  - unfold shl_align. destruct (d + e - 53 - e) as [|k|k] eqn:Hk; try lia.
    destruct (binary_round_aux_shape (Zpos M) e) as (m' & e' & -> & Hs).
    + assert (2 ^ 52 ≤ 2 ^ (d - 1)) by (apply Z.pow_le_mono_r; lia). lia.
    + cbn [Zdigits2]. lia.
    + cbn [Zdigits2]. lia.
    + exists m', e'. split; [done|]. right. cbn [Zdigits2] in Hs. rewrite HdM in Hs.
      destruct Hs as [(?&?&?)|(?&?&?)]; [left|right]; done.
Qed.

Lemma digits2_pos_le M n : 0 ≤ n → Zpos M < 2 ^ n → Zpos (digits2_pos M) ≤ n.
Proof.
  intros Hn HM. pose proof (digits2_pos_bounds M) as [Hl _].
  destruct (Z.le_gt_cases (Zpos (digits2_pos M)) n) as [|Hgt]; [done|].
  assert (2 ^ n ≤ 2 ^ (Zpos (digits2_pos M) - 1)) by (apply Z.pow_le_mono_r; lia).
  lia.
Qed.

Lemma digits2_pos_gt M n : 0 ≤ n → 2 ^ n ≤ Zpos M → n < Zpos (digits2_pos M).
Proof.
  intros Hn HM. pose proof (digits2_pos_bounds M) as [_ Hu].
  destruct (Z.lt_ge_cases n (Zpos (digits2_pos M))) as [|Hge]; [done|].
  assert (2 ^ Zpos (digits2_pos M) ≤ 2 ^ n) by (apply Z.pow_le_mono_r; lia).
  lia.
Qed.

(** Comparison of two positive finite numbers in canonical form. *)
Lemma SFleb_pos m e m' e' :
  SFleb (S754_finite false m e) (S754_finite false m' e') = true
  ↔ e < e' ∨ (e = e' ∧ Zpos m ≤ Zpos m').
Proof.
  unfold SFleb, SFcompare. change (Pos.compare_cont Eq m m') with (Pos.compare m m').
  destruct (Z.compare_spec e e'), (Pos.compare_spec m m'); split; try done; try lia.
  all: intros _; lia.
Qed.

Lemma SFltb_pos m e m' e' :
  SFltb (S754_finite false m e) (S754_finite false m' e') = true
  ↔ e < e' ∨ (e = e' ∧ Zpos m < Zpos m').
Proof.
  unfold SFltb, SFcompare. change (Pos.compare_cont Eq m m') with (Pos.compare m m').
  destruct (Z.compare_spec e e'), (Pos.compare_spec m m'); split; try done; try lia.
  all: intros _; lia.
Qed.

Lemma SFltb_SFleb x y : SFltb x y = true → SFleb x y = true.
Proof. unfold SFltb, SFleb. by destruct (SFcompare x y) as [[]|]. Qed.

#[local] Open Scope float_scope.

Lemma Prim2SF_tenth : Prim2SF 0.1 = S754_finite false 7205759403792794 (-56).
Proof. vm_compute. reflexivity. Qed.

Lemma Prim2SF_one : Prim2SF 1.0 = S754_finite false 4503599627370496 (-52).
Proof. vm_compute. reflexivity. Qed.

(** The floats between 0.1 and 1.0: a 53-bit mantissa [m] and an exponent
    [e] between -56 and -52; [A] is the mantissa aligned to exponent -56. *)
Lemma unit_interval_spec a :
  (0.1 <=? a) = true → (a <=? 1.0) = true →
  ∃ m e, Prim2SF a = S754_finite false m e
    ∧ (-56 ≤ e ≤ -52)%Z
    ∧ (7205759403792794 ≤ Zpos m * 2 ^ (e + 56) ≤ 72057594037927936)%Z
    ∧ (4503599627370496 ≤ Zpos m < 9007199254740992)%Z.
Proof.
  rewrite !leb_spec, Prim2SF_tenth, Prim2SF_one. intros Hlo Hhi.
  pose proof (Prim2SF_valid a) as Hv.
  destruct (Prim2SF a) as [s|s| |s m e]; try done.
  { by destruct s. }
  destruct s; [done|].
  apply SFleb_pos in Hlo, Hhi. exists m, e. split; [done|].
  simpl in Hv. apply andb_prop in Hv as [Hc _].
  unfold canonical_mantissa, fexp, SpecFloat.emin, prec, emax in Hc.
  apply Z.eqb_eq in Hc.
  assert (Zpos (digits2_pos m) = 53)%Z as Hd by lia.
  pose proof (digits2_pos_bounds m) as Hb. rewrite Hd in Hb.
  change (2 ^ (53 - 1))%Z with 4503599627370496%Z in Hb.
  change (2 ^ 53)%Z with 9007199254740992%Z in Hb.
  split; [lia|]. split; [|done].
  assert (e = -56 ∨ e = -55 ∨ e = -54 ∨ e = -53 ∨ e = -52)%Z
    as [->|[->|[->|[->| ->]]]] by lia; simpl; lia.
Qed.

Lemma add_tenth_spec a m e :
  Prim2SF a = S754_finite false m e → (-56 ≤ e)%Z →
  Prim2SF (a + 0.1)
  = binary_normalize 53 1024 (Zpos m * 2 ^ (e + 56) + 7205759403792794) (-56) false.
Proof.
  intros Ha He. rewrite add_spec, Ha, Prim2SF_tenth.
  unfold SF64add, SFadd, prec, emax.
  replace (Z.min e (-56)) with (-56)%Z by lia.
  cbn [cond_Zopp]. rewrite shl_align_value by lia.
  by replace (e - -56)%Z with (e + 56)%Z by lia.
Qed.

Lemma sub_tenth_spec a m e :
  Prim2SF a = S754_finite false m e → (-56 ≤ e)%Z →
  Prim2SF (a - 0.1)
  = binary_normalize 53 1024 (Zpos m * 2 ^ (e + 56) - 7205759403792794) (-56) false.
Proof.
  intros Ha He. rewrite sub_spec, Ha, Prim2SF_tenth.
  unfold SF64sub, SFsub, prec, emax.
  replace (Z.min e (-56)) with (-56)%Z by lia.
  cbn [cond_Zopp]. rewrite shl_align_value by lia.
  by replace (e - -56)%Z with (e + 56)%Z by lia.
Qed.

(** Adding 0.1 to a float of [0.1, 1.0] never falls below 0.1. *)
Lemma add_tenth_lower a :
  (0.1 <=? a) = true → (a <=? 1.0) = true → (0.1 <=? a + 0.1) = true.
Proof.
  intros Hlo Hhi.
  destruct (unit_interval_spec a Hlo Hhi) as (m & e & Ha & He & HA & Hm).
  rewrite leb_spec, Prim2SF_tenth, (add_tenth_spec a m e) by (done || lia).
  set (A := (Zpos m * 2 ^ (e + 56))%Z) in *.
  destruct (A + 7205759403792794)%Z as [|M|M] eqn:HM; try lia.
  cbn [binary_normalize].
  assert (53 < Zpos (digits2_pos M))%Z by (apply digits2_pos_gt; simpl; lia).
  assert (Zpos (digits2_pos M) ≤ 57)%Z by (apply digits2_pos_le; simpl; lia).
  destruct (binary_round_shape M (-56)) as (m' & e' & -> & Hs); [lia..|].
  apply SFleb_pos. lia.
Qed.

(** Subtracting 0.1 from a float of [0.1, 1.0] never exceeds 1.0. *)
Lemma sub_tenth_upper a :
  (0.1 <=? a) = true → (a <=? 1.0) = true → (a - 0.1 <=? 1.0) = true.
Proof.
  intros Hlo Hhi.
  destruct (unit_interval_spec a Hlo Hhi) as (m & e & Ha & He & HA & Hm).
  rewrite leb_spec, Prim2SF_one, (sub_tenth_spec a m e) by (done || lia).
  set (A := (Zpos m * 2 ^ (e + 56))%Z) in *.
  destruct (A - 7205759403792794)%Z as [|M|M] eqn:HM; try lia; [done|].
  cbn [binary_normalize].
  assert (Zpos (digits2_pos M) ≤ 56)%Z by (apply digits2_pos_le; simpl; lia).
  destruct (binary_round_shape M (-56)) as (m' & e' & -> & Hs); [lia..|].
  apply SFleb_pos. change (2 ^ 52)%Z with 4503599627370496%Z in Hs. lia.
Qed.

(** On [0.1, 1.0] adding 0.1 is never absorbed. *)
Lemma add_tenth_changes a :
  (0.1 <=? a) = true → (a <=? 1.0) = true → a + 0.1 ≠ a.
Proof.
  intros Hlo Hhi Heq.
  destruct (unit_interval_spec a Hlo Hhi) as (m & e & Ha & He & HA & Hm).
  apply (f_equal Prim2SF) in Heq.
  rewrite (add_tenth_spec a m e), Ha in Heq by (done || lia).
  destruct (Zpos m * 2 ^ (e + 56) + 7205759403792794)%Z as [|M|M] eqn:HM; try lia.
  cbn [binary_normalize] in Heq.
  pose proof (digits2_pos_bounds M) as [_ HdM].
  assert (53 < Zpos (digits2_pos M))%Z by (apply digits2_pos_gt; simpl; lia).
  assert (Zpos (digits2_pos M) ≤ 57)%Z by (apply digits2_pos_le; simpl; lia).
  destruct (binary_round_shape M (-56)) as (m' & e' & Hr & Hs); [lia..|].
  rewrite Hr in Heq. injection Heq as -> ->.
  set (d := Zpos (digits2_pos M)) in *.
  destruct Hs as [(?&?&?)|[(?&?&Hq&?)|(?&?&Hm'&?)]]; [lia| |].
  - replace (e + 56)%Z with (d - 53)%Z in HM by lia.
    assert (0 < 2 ^ (d - 53))%Z by (apply Z.pow_pos_nonneg; lia).
    assert (2 ^ (d - 53) ≤ 2 ^ 4)%Z by (apply Z.pow_le_mono_r; lia).
    change (2 ^ 4)%Z with 16%Z in *.
    assert (Zpos m + 1 ≤ Zpos M / 2 ^ (d - 53))%Z
      by (apply Z.div_le_lower_bound; nia).
    lia.
  - rewrite Hm' in HM. replace (e + 56)%Z with (d - 52)%Z in HM by lia.
    rewrite <- Z.pow_add_r in HM by lia.
    replace (52 + (d - 52))%Z with d in HM by lia. lia.
Qed.

(** On [0.1, 1.0] subtracting 0.1 is never absorbed. *)
Lemma sub_tenth_changes a :
  (0.1 <=? a) = true → (a <=? 1.0) = true → a - 0.1 ≠ a.
Proof.
  intros Hlo Hhi Heq.
  destruct (unit_interval_spec a Hlo Hhi) as (m & e & Ha & He & HA & Hm).
  apply (f_equal Prim2SF) in Heq.
  rewrite (sub_tenth_spec a m e), Ha in Heq by (done || lia).
  destruct (Zpos m * 2 ^ (e + 56) - 7205759403792794)%Z as [|M|M] eqn:HM;
    try lia; [done|].
  cbn [binary_normalize] in Heq.
  pose proof (digits2_pos_bounds M) as [HdM _].
  assert (Zpos (digits2_pos M) ≤ 56)%Z by (apply digits2_pos_le; simpl; lia).
  destruct (binary_round_shape M (-56)) as (m' & e' & Hr & Hs); [lia..|].
  rewrite Hr in Heq. injection Heq as -> ->.
  set (d := Zpos (digits2_pos M)) in *.
  destruct Hs as [(?&?&Hx)|[(?&?&Hq&?)|(?&?&Hm'&Hq)]].
  - assert (e = -56)%Z as -> by lia. assert (d = 53)%Z as Hd by lia.
    rewrite Hd in Hx. simpl in HM, Hx. lia.
  - replace (e + 56)%Z with (d - 53)%Z in HM by lia.
    assert (0 < 2 ^ (d - 53))%Z by (apply Z.pow_pos_nonneg; lia).
    assert (2 ^ (d - 53) ≤ 2 ^ 3)%Z by (apply Z.pow_le_mono_r; lia).
    change (2 ^ 3)%Z with 8%Z in *.
    assert (Zpos M / 2 ^ (d - 53) < Zpos m - 1)%Z
      by (apply Z.div_lt_upper_bound; nia).
    lia.
  - rewrite Hm' in HM. replace (e + 56)%Z with (d - 53 + 1)%Z in HM by lia.
    assert (0 < 2 ^ (d - 53))%Z by (apply Z.pow_pos_nonneg; lia).
    assert (2 ^ (d - 53) ≤ 2 ^ 3)%Z by (apply Z.pow_le_mono_r; lia).
    rewrite Z.pow_add_r in HM by lia.
    change (2 ^ 3)%Z with 8%Z in *. change (2 ^ 1)%Z with 2%Z in *.
    change (2 ^ 52)%Z with 4503599627370496%Z in *.
    change (2 ^ 53)%Z with 9007199254740992%Z in *.
    assert (Zpos M / 2 ^ (d - 53) < 9007199254740992 - 1)%Z
      by (apply Z.div_lt_upper_bound; nia).
    lia.
Qed.
End FloatFacts.

Section Clamping.
#[local] Open Scope float_scope.

Lemma SFcompare_antisym x y :
  SFcompare y x = CompOpp <$> SFcompare x y.
Proof.
  destruct x as [sx|sx| |sx mx ex], y as [sy|sy| |sy my ey];
    try (by repeat match goal with s : bool |- _ => destruct s end).
  destruct sx, sy; try done; cbn [SFcompare fmap option_fmap option_map];
    change (Pos.compare_cont Eq my mx) with (Pos.compare my mx);
    change (Pos.compare_cont Eq mx my) with (Pos.compare mx my);
    rewrite (Z.compare_antisym ex ey), (Pos.compare_antisym mx my);
    by destruct (ex ?= ey)%Z, (mx ?= my)%positive.
Qed.

(** [x <= c] excludes [x > c]. *)
Lemma le_not_gt x c : Py.le x c = true → Py.gt x c = false.
Proof.
  unfold Py.le, Py.gt. rewrite leb_spec, ltb_spec.
  unfold SFleb, SFltb. rewrite (SFcompare_antisym (Prim2SF x) (Prim2SF c)).
  by destruct (SFcompare (Prim2SF x) (Prim2SF c)) as [[]|].
Qed.

Lemma lt_le x y : Py.lt x y = true → Py.le x y = true.
Proof. unfold Py.lt, Py.le. rewrite ltb_spec, leb_spec. apply SFltb_SFleb. Qed.

Lemma Prim2SF_0_3 : Prim2SF 0.3 = S754_finite false 5404319552844595 (-54).
Proof. vm_compute. reflexivity. Qed.

Lemma Prim2SF_0_9 : Prim2SF 0.9 = S754_finite false 8106479329266893 (-53).
Proof. vm_compute. reflexivity. Qed.

(** The range of the initial draw lies inside the clamping range. *)
Lemma between_widen u : between 0.3 0.9 u → between 0.1 1.0 u.
Proof.
  unfold between, Py.le.
  rewrite !leb_spec, Prim2SF_0_3, Prim2SF_0_9, Prim2SF_tenth, Prim2SF_one.
  intros [Hlo Hhi].
  destruct (Prim2SF u) as [s|s| |s m e]; try done; destruct s; try done.
  apply SFleb_pos in Hlo, Hhi. split; apply SFleb_pos; lia.
Qed.

(** The increasing update stays in the clamping range. *)
Lemma between_min a :
  between 0.1 1.0 a → between 0.1 1.0 (Py.min 1.0 (a + 0.1)).
Proof.
  intros [Hlo Hhi]. unfold Py.min.
  destruct (Py.lt (a + 0.1) 1.0) eqn:Hlt.
  - split; [by apply add_tenth_lower | by apply lt_le].
  - by split.
Qed.

(** So does the decreasing update. *)
Lemma between_max a :
  between 0.1 1.0 a → between 0.1 1.0 (Py.max 0.1 (a - 0.1)).
Proof.
  intros [Hlo Hhi]. unfold Py.max.
  destruct (Py.gt (a - 0.1) 0.1) eqn:Hgt.
  - split; [by apply lt_le | by apply sub_tenth_upper].
  - by split.
Qed.

(** Inside the clamping range the increasing update changes the value
    unless it is already 1.0 ... *)
Lemma min_changes a :
  between 0.1 1.0 a → Py.min 1.0 (a + 0.1) ≠ a ↔ a ≠ 1.0.
Proof.
  intros [Hlo Hhi]. split.
  - intros Hne ->. by apply Hne.
  - intros Hne. unfold Py.min. destruct (Py.lt (a + 0.1) 1.0); [|done].
    by apply add_tenth_changes.
Qed.

(** ... and the decreasing update changes it unless it is already 0.1. *)
Lemma max_changes a :
  between 0.1 1.0 a → Py.max 0.1 (a - 0.1) ≠ a ↔ a ≠ 0.1.
Proof.
  intros [Hlo Hhi]. split.
  - intros Hne ->. by apply Hne.
  - intros Hne. unfold Py.max. destruct (Py.gt (a - 0.1) 0.1); [|done].
    by apply sub_tenth_changes.
Qed.

End Clamping.

(* ===================================================================== *)
(** ** The initial draw: [random.uniform(0.3, 0.9)] *)
(* ===================================================================== *)

(** [0.3 + (0.9 - 0.3) * U] is followed through the product and the sum for
    every float [U] of [0.0, 1.0); the product may fall below the normal
    range, so the rounding is described for any positive mantissa. *)

Section UniformDraw.
#[local] Open Scope Z_scope.

Lemma shr_fexp_any m e :
  0 ≤ m →
  ∃ r e', shr_fexp 53 1024 m e loc_Exact = (r, e')
    ∧ e' = Z.max e (fexp 53 1024 (Zdigits2 m + e))
    ∧ shr_m r = m / 2 ^ (e' - e).
Proof.
  intros Hm. unfold shr_fexp, shr.
  set (E := fexp 53 1024 (Zdigits2 m + e)).
  destruct (E - e) as [|k|k] eqn:Hk.
  - eexists _, _. split; [done|]. split; [lia|].
    rewrite Z.sub_diag. change (2 ^ 0) with 1. by rewrite Z.div_1_r.
  - eexists _, _. split; [done|]. split; [lia|].
    rewrite shr_m_iter by (simpl; lia). simpl shr_m.
    f_equal. f_equal. lia.
  - rewrite <- Pos2Z.opp_pos in Hk.
    eexists _, _. split; [done|]. split; [lia|].
    rewrite Z.sub_diag. change (2 ^ 0) with 1. by rewrite Z.div_1_r.
Qed.

Lemma Zdigits2_le m n : 0 ≤ n → 0 ≤ m < 2 ^ n → Zdigits2 m ≤ n.
Proof.
  intros Hn [Hm Hlt]. destruct m as [|p|p]; simpl; [done| |lia].
  by apply digits2_pos_le.
Qed.

(** Rounding any positive mantissa, also below the normal range. *)
Lemma binary_round_aux_any M e :
  0 < M →
  let E := Z.max e (fexp 53 1024 (Zdigits2 M + e)) in
  let q := M / 2 ^ (E - e) in
  E < 971 →
  let R := binary_round_aux 53 1024 false M e loc_Exact in
  (R = S754_zero false ∧ q = 0)
  ∨ (∃ m', R = S754_finite false m' E ∧ q ≤ Zpos m' ≤ q + 1 ∧ Zpos m' < 2 ^ 53)
  ∨ (R = S754_finite false 4503599627370496 (E + 1) ∧ q = 2 ^ 53 - 1).
Proof.
  intros Hpos E q HE R.
  pose proof (Zdigits2_bounds M Hpos) as [Hdl Hdu].
  assert (HEf : fexp 53 1024 (Zdigits2 M + e) = Z.max (Zdigits2 M + e - 53) (-1074)) by done.
  set (d := Zdigits2 M) in *.
  assert (0 ≤ E - e ∧ d - 53 ≤ E - e ∧ -1074 ≤ E) as (Hn0 & Hnd & Hmin) by lia.
  assert (0 < 2 ^ (E - e)) as Hp2 by (apply Z.pow_pos_nonneg; lia).
  assert (0 ≤ q < 2 ^ 53) as [Hq0 Hqu].
  { split; [apply Z.div_pos; lia|].
    apply Z.div_lt_upper_bound; [done|].
    rewrite <- Z.pow_add_r by lia.
    assert (2 ^ d ≤ 2 ^ (E - e + 53)) by (apply Z.pow_le_mono_r; lia). lia. }
  subst R. unfold binary_round_aux.
  destruct (shr_fexp_any M e) as (r1 & e1 & -> & He1 & Hr1); [lia|].
  fold d in He1. fold E in He1. subst e1. fold q in Hr1. rewrite Hr1.
  pose proof (rne_bounds q (loc_of_shr_record r1)) as Hrne.
  set (m1 := round_nearest_even q (loc_of_shr_record r1)) in *.
  change (2 ^ 53) with 9007199254740992 in *.
  destruct (shr_fexp_any m1 E) as (r2 & e2 & -> & He2 & Hr2); [lia|].
  assert (m1 = 0 ∨ 0 < m1 < 9007199254740992 ∨ m1 = 9007199254740992)
    as [Hm1|[Hm1|Hm1]] by lia.
  - left. rewrite Hm1 in He2, Hr2. simpl in Hr2. rewrite Hr2. split; [done|lia].
  - right. left.
    assert (Zdigits2 m1 ≤ 53) as Hd1 by (apply Zdigits2_le; simpl; lia).
    assert (e2 = E) as -> by (unfold fexp, SpecFloat.emin in He2; lia).
    replace (E - E) with 0 in Hr2 by lia. simpl in Hr2. rewrite Z.div_1_r in Hr2.
    rewrite Hr2. destruct m1 as [|p1|p1]; try lia.
    replace (E <=? 1024 - 53)%Z with true by (symmetry; apply Z.leb_le; lia).
    exists p1. split; [done|]. lia.
  - right. right.
    assert (e2 = E + 1) as ->.
    { rewrite Hm1 in He2. change (Zdigits2 9007199254740992) with 54 in He2.
      unfold fexp, SpecFloat.emin in He2; lia. }
    replace (E + 1 - E) with 1 in Hr2 by lia. rewrite Hm1 in Hr2.
    change (9007199254740992 / 2 ^ 1) with 4503599627370496 in Hr2.
    rewrite Hr2.
    replace (E + 1 <=? 1024 - 53)%Z with true by (symmetry; apply Z.leb_le; lia).
    split; [done|lia].
Qed.

Lemma valid_finite s m e :
  valid_binary (S754_finite s m e) = true →
  Z.max (Zpos (digits2_pos m) + e - 53) (-1074) = e.
Proof.
  simpl. intros [Hc _]%andb_prop.
  unfold canonical_mantissa, fexp, SpecFloat.emin, prec, emax in Hc.
  by apply Z.eqb_eq in Hc.
Qed.

#[local] Open Scope float_scope.

Lemma Prim2SF_span : Prim2SF (0.9 - 0.3) = S754_finite false 5404319552844596 (-53).
Proof. vm_compute. reflexivity. Qed.

(** The floats of [0.0, 1.0): a zero, or a positive number with an exponent
    of at most -53. *)
Lemma variate_spec U :
  (0 <=? U) = true → (U <? 1) = true →
  (∃ s, Prim2SF U = S754_zero s)
  ∨ ∃ m e, Prim2SF U = S754_finite false m e
      ∧ (e ≤ -53)%Z ∧ (Zpos m < 9007199254740992)%Z.
Proof.
  rewrite leb_spec, ltb_spec, Prim2SF_one.
  change (Prim2SF 0) with (S754_zero false).
  intros Hlo Hhi. pose proof (Prim2SF_valid U) as Hv.
  destruct (Prim2SF U) as [s|s| |s m e]; try done.
  - left. by exists s.
  - by destruct s.
  - destruct s; [done|]. right. exists m, e. split; [done|].
    apply SFltb_pos in Hhi. apply valid_finite in Hv.
    pose proof (digits2_pos_bounds m) as [Hl Hu].
    assert (Zpos (digits2_pos m) ≤ 53)%Z as Hd by lia.
    assert (2 ^ Zpos (digits2_pos m) ≤ 2 ^ 53)%Z as Hp
      by (apply Z.pow_le_mono_r; lia).
    change (2 ^ 53)%Z with 9007199254740992%Z in Hp.
    split; [|lia].
    destruct Hhi as [|[-> Hm]]; [lia|].
    assert (Zpos (digits2_pos m) = 53)%Z as Hd' by lia.
    rewrite Hd' in Hl. change (2 ^ (53 - 1))%Z with 4503599627370496%Z in Hl. lia.
Qed.

(** The product [(0.9 - 0.3) * U] for a positive variate [U] other than the
    largest one: it stays at or below 0.6, the float just under the span. *)
Lemma mul_span_upper U m e :
  Prim2SF U = S754_finite false m e →
  (e ≤ -53)%Z → (Zpos m < 9007199254740992)%Z →
  (e = -53 → Zpos m ≤ 9007199254740990)%Z →
  (Prim2SF ((0.9 - 0.3) * U) = S754_zero false)
  ∨ ∃ mp ep, Prim2SF ((0.9 - 0.3) * U) = S754_finite false mp ep
      ∧ (ep < -53 ∨ ep = -53 ∧ Zpos mp ≤ 5404319552844595)%Z.
Proof.
  intros HU He Hm Htop. rewrite mul_spec, Prim2SF_span, HU.
  unfold SF64mul, SFmul, prec, emax. cbn [xorb].
  rewrite Pos2Z.inj_mul.
  set (M := (5404319552844596 * Zpos m)%Z).
  assert (0 < M)%Z as HM0 by lia.
  assert (Zdigits2 M ≤ 106)%Z as Hd.
  { apply Zdigits2_le; [lia|].
    change (2 ^ 106)%Z with (9007199254740992 * 9007199254740992)%Z. nia. }
  pose proof (binary_round_aux_any M (-53 + e) HM0) as H. cbv zeta in H.
  unfold fexp, SpecFloat.emin in H.
  set (E := Z.max (-53 + e) (Z.max (Zdigits2 M + (-53 + e) - 53) (3 - 1024 - 53))) in *.
  assert (E ≤ -53)%Z as HE by lia.
  destruct H as [[-> _]|[(m' & -> & Hq & _)|[-> Hq]]]; [lia|by left| |]; right.
  - exists m', E. split; [done|].
    assert (E < -53 ∨ E = -53)%Z as [|HE53] by lia; [by left|right].
    split; [done|].
    assert (e = -53)%Z as -> by lia. rewrite HE53 in Hq.
    change (2 ^ (-53 - (-53 + -53)))%Z with 9007199254740992%Z in Hq.
    assert (M / 9007199254740992 < 5404319552844595)%Z
      by (apply Z.div_lt_upper_bound; lia).
    lia.
  - eexists _, _. split; [done|].
    assert (E < -54 ∨ E = -54 ∨ E = -53)%Z as [|[|HE53]] by lia; [lia|lia|].
    exfalso. assert (e = -53)%Z as -> by lia. rewrite HE53 in Hq.
    change (2 ^ (-53 - (-53 + -53)))%Z with 9007199254740992%Z in Hq.
    assert (M / 9007199254740992 < 5404319552844595)%Z
      by (apply Z.div_lt_upper_bound; lia).
    change (2 ^ 53)%Z with 9007199254740992%Z in Hq. lia.
Qed.

(** Adding a zero to 0.3 leaves it. *)
Lemma add_0_3_zero p s :
  Prim2SF p = S754_zero s → between 0.3 0.9 (0.3 + p).
Proof.
  intros Hp. unfold between, Py.le.
  rewrite !leb_spec, add_spec, Hp, Prim2SF_0_3, Prim2SF_0_9. done.
Qed.

(** Adding to 0.3 a positive float of at most 0.6: the sum is rounded to a
    float between 0.3 and 0.9. *)
Lemma add_0_3_range p mp ep :
  Prim2SF p = S754_finite false mp ep →
  (ep < -53 ∨ ep = -53 ∧ Zpos mp ≤ 5404319552844595)%Z →
  between 0.3 0.9 (0.3 + p).
Proof.
  intros Hp Hle. pose proof (Prim2SF_valid p) as Hv. rewrite Hp in Hv.
  apply valid_finite in Hv.
  pose proof (digits2_pos_bounds mp) as [Hml Hmu].
  unfold between, Py.le.
  rewrite !leb_spec, add_spec, Hp, Prim2SF_0_3, Prim2SF_0_9.
  unfold SF64add, SFadd, prec, emax. cbn [cond_Zopp].
  destruct Hle as [Hep| [-> Hmp]].
  - (* the addend is below 0.5 *)
    replace (Z.min (-54) ep) with ep by lia.
    rewrite !shl_align_value by lia.
    rewrite Z.sub_diag. change (2 ^ 0)%Z with 1%Z. rewrite Z.mul_1_r.
    set (k := (-54 - ep)%Z).
    assert (0 ≤ k)%Z as Hk by lia.
    assert (0 < 2 ^ k)%Z as HT by (apply Z.pow_pos_nonneg; lia).
    assert (Zpos mp < 9007199254740992)%Z as Hmp.
    { assert (2 ^ Zpos (digits2_pos mp) ≤ 2 ^ 53)%Z
        by (apply Z.pow_le_mono_r; lia).
      change (2 ^ 53)%Z with 9007199254740992%Z in *. lia. }
    destruct (5404319552844595 * 2 ^ k + Zpos mp)%Z as [|P|P] eqn:HP; try lia.
    cbn [binary_normalize].
    assert (52 + k < Zpos (digits2_pos P))%Z as Hdl.
    { apply digits2_pos_gt; [lia|]. rewrite Z.pow_add_r by lia.
      change (2 ^ 52)%Z with 4503599627370496%Z. nia. }
    assert (Zpos (digits2_pos P) ≤ 54 + k)%Z as Hdu.
    { apply digits2_pos_le; [lia|]. rewrite Z.pow_add_r by lia.
      change (2 ^ 54)%Z with 18014398509481984%Z. nia. }
    destruct (binary_round_shape P ep) as (m' & e' & -> & Hs); [lia..|].
    set (d := Zpos (digits2_pos P)) in *.
    destruct Hs as [(Hd&He'&Hm')|[(Hd&He'&Hq&_)|(Hd&He'&Hm'&Hq)]].
    + assert (k = 0)%Z as Hk0 by lia. assert (d = 53)%Z as Hd53 by lia.
      rewrite Hk0 in HP. rewrite Hd53 in Hm'. simpl in HP, Hm'.
      split; apply SFleb_pos; lia.
    + assert (d = 53 + k ∨ d = 54 + k)%Z as [Hdk|Hdk] by lia.
      * replace (d - 53)%Z with k in Hq by lia.
        assert (5404319552844595 ≤ Zpos P / 2 ^ k)%Z
          by (apply Z.div_le_lower_bound; lia).
        split; apply SFleb_pos; lia.
      * replace (d - 53)%Z with (k + 1)%Z in Hq by lia.
        rewrite Z.pow_add_r in Hq by lia. change (2 ^ 1)%Z with 2%Z in Hq.
        assert (Zpos P / (2 ^ k * 2) < 7205759403792794)%Z
          by (apply Z.div_lt_upper_bound; nia).
        split; apply SFleb_pos; lia.
    + assert (d = 53 + k ∨ d = 54 + k)%Z as [Hdk|Hdk] by lia.
      * change (2 ^ 52)%Z with 4503599627370496%Z in Hm'.
        split; apply SFleb_pos; lia.
      * exfalso. replace (d - 53)%Z with (k + 1)%Z in Hq by lia.
        rewrite Z.pow_add_r in Hq by lia. change (2 ^ 1)%Z with 2%Z in Hq.
        assert (Zpos P / (2 ^ k * 2) < 7205759403792794)%Z
          by (apply Z.div_lt_upper_bound; nia).
        change (2 ^ 53)%Z with 9007199254740992%Z in Hq. lia.
  - (* the addend is between 0.5 and 0.6 *)
    replace (Z.min (-54) (-53)) with (-54)%Z by lia.
    rewrite !shl_align_value by lia.
    change (2 ^ (-54 - -54))%Z with 1%Z. change (2 ^ (-53 - -54))%Z with 2%Z.
    assert (Zpos (digits2_pos mp) = 53)%Z as Hd53 by lia.
    rewrite Hd53 in Hml. change (2 ^ (53 - 1))%Z with 4503599627370496%Z in Hml.
    destruct (5404319552844595 * 1 + Zpos mp * 2)%Z as [|P|P] eqn:HP; try lia.
    cbn [binary_normalize].
    assert (Zpos (digits2_pos P) = 54)%Z as Hd.
    { apply digits2_pos_unique. simpl. lia. }
    destruct (binary_round_shape P (-54)) as (m' & e' & -> & Hs); [lia..|].
    rewrite Hd in Hs. change (2 ^ (54 - 53))%Z with 2%Z in Hs.
    assert (Zpos P / 2 < 8106479329266893)%Z
      by (apply Z.div_lt_upper_bound; lia).
    change (2 ^ 53)%Z with 9007199254740992%Z in Hs.
    destruct Hs as [(?&?&?)|[(_&He'&Hq&_)|(_&He'&Hm'&Hq)]]; [lia| |lia].
    split; apply SFleb_pos; lia.
Qed.

(** [random.uniform(0.3, 0.9)] stays between its bounds, whatever variate
    of [0.0, 1.0) it is computed from. *)
Lemma uniform_range U :
  (0 <=? U) = true → (U <? 1) = true → between 0.3 0.9 (Py.uniform 0.3 0.9 U).
Proof.
  intros Hlo Hhi. unfold Py.uniform.
  destruct (variate_spec U Hlo Hhi) as [[s HU]|(m & e & HU & He & Hm)].
  - apply (add_0_3_zero _ s). by rewrite mul_spec, Prim2SF_span, HU.
  - destruct (decide (e = -53 ∧ Zpos m = 9007199254740991)%Z) as [[-> Hmax]|Hne].
    + assert (U = 0x1.fffffffffffffp-1) as ->.
      { apply Prim2SF_inj. rewrite HU. vm_compute. f_equal. lia. }
      by vm_compute.
    + destruct (mul_span_upper U m e HU He Hm) as [Hz|(mp & ep & Hp & Hle)];
        [lia| |].
      * by apply (add_0_3_zero _ false).
      * by apply (add_0_3_range _ mp ep).
Qed.

End UniformDraw.

(* ===================================================================== *)
(** ** The graph: weights and the number of edges *)
(* ===================================================================== *)

Section Graph.
#[local] Open Scope nat_scope.
Implicit Types (G : Nx.Graph) (u v x y : string) (w : float)
  (nbrs : gmap string float).

Lemma weight_add_node n G x y : Nx.weight (Nx.add_node n G) x y = Nx.weight G x y.
Proof.
  unfold Nx.weight, Nx.add_node. destruct (G !! n) eqn:Hn; [done|].
  destruct (decide (n = x)) as [->|Hne].
  - by rewrite lookup_insert_eq, Hn.
  - by rewrite lookup_insert_ne.
Qed.

Lemma weight_set_adj u v w G x y :
  Nx.weight (Nx.set_adj u v w G) x y
  = if decide (x = u ∧ y = v) then Some w else Nx.weight G x y.
Proof.
  unfold Nx.weight, Nx.set_adj.
  destruct (decide (x = u)) as [->|Hx].
  - rewrite lookup_insert_eq. cbn [mbind option_bind].
    destruct (decide (y = v)) as [->|Hy].
    + rewrite lookup_insert_eq. by rewrite decide_True.
    + rewrite lookup_insert_ne by done. rewrite decide_False by tauto.
      by destruct (G !! u).
  - rewrite lookup_insert_ne by done. by rewrite decide_False by tauto.
Qed.

(** What [add_edge] stores: the new weight in both directions, and
    every other entry as before. *)
Lemma weight_add_edge u v w G x y :
  Nx.weight (Nx.add_edge u v w G) x y
  = if decide ((x = u ∧ y = v) ∨ (x = v ∧ y = u)) then Some w
    else Nx.weight G x y.
Proof.
  unfold Nx.add_edge. rewrite !weight_set_adj, !weight_add_node.
  repeat case_decide; try done; exfalso; intuition congruence.
Qed.

Lemma degree_sum_comm (j1 j2 : string) (z1 z2 : gmap string float) (s : nat) :
  Nx.degree j1 z1 + (Nx.degree j2 z2 + s) = Nx.degree j2 z2 + (Nx.degree j1 z1 + s).
Proof. lia. Qed.

Lemma degree_sum_insert_None n nbrs G :
  G !! n = None →
  Nx.degree_sum (<[n := nbrs]> G) = Nx.degree n nbrs + Nx.degree_sum G.
Proof.
  intros Hn. unfold Nx.degree_sum.
  rewrite map_fold_insert_L; [done| |done].
  intros. apply degree_sum_comm.
Qed.

Lemma degree_sum_insert_Some n nbrs old G :
  G !! n = Some old →
  Nx.degree_sum (<[n := nbrs]> G) + Nx.degree n old
  = Nx.degree n nbrs + Nx.degree_sum G.
Proof.
  intros Hn. rewrite <- (insert_delete_eq G n nbrs).
  rewrite degree_sum_insert_None by apply lookup_delete_eq.
  assert (Nx.degree_sum G = Nx.degree n old + Nx.degree_sum (delete n G)) as ->;
    [|lia].
  unfold Nx.degree_sum.
  rewrite (map_fold_delete_L _ _ n old G); [done| |done].
  intros. apply degree_sum_comm.
Qed.

Lemma degree_empty n : Nx.degree n ∅ = 0.
Proof. unfold Nx.degree. by rewrite map_size_empty, lookup_empty. Qed.

Lemma degree_sum_add_node n G : Nx.degree_sum (Nx.add_node n G) = Nx.degree_sum G.
Proof.
  unfold Nx.add_node. destruct (G !! n) eqn:Hn; [done|].
  by rewrite degree_sum_insert_None, degree_empty.
Qed.

Lemma degree_insert_le n v w nbrs :
  Nx.degree n nbrs ≤ Nx.degree n (<[v := w]> nbrs)
  ∧ Nx.degree n (<[v := w]> nbrs)
    ≤ Nx.degree n nbrs + (if decide (n = v) then 2 else 1).
Proof.
  unfold Nx.degree. destruct (nbrs !! v) eqn:Hv.
  - rewrite map_size_insert_Some by done.
    destruct (decide (n = v)) as [->|Hne].
    + rewrite lookup_insert_eq, Hv. lia.
    + rewrite lookup_insert_ne by done. lia.
  - rewrite map_size_insert_None by done.
    destruct (decide (n = v)) as [->|Hne].
    + rewrite lookup_insert_eq, Hv. lia.
    + rewrite lookup_insert_ne by done. destruct (nbrs !! n); lia.
Qed.

Lemma degree_insert_present n v w nbrs :
  is_Some (nbrs !! v) → Nx.degree n (<[v := w]> nbrs) = Nx.degree n nbrs.
Proof.
  intros [w0 Hv]. unfold Nx.degree. rewrite map_size_insert_Some by done.
  destruct (decide (n = v)) as [->|Hne].
  - by rewrite lookup_insert_eq, Hv.
  - by rewrite lookup_insert_ne.
Qed.

Lemma degree_sum_set_adj u v w G :
  Nx.degree_sum G ≤ Nx.degree_sum (Nx.set_adj u v w G)
  ∧ Nx.degree_sum (Nx.set_adj u v w G)
    ≤ Nx.degree_sum G + (if decide (u = v) then 2 else 1).
Proof.
  unfold Nx.set_adj. destruct (G !! u) as [nbrs|] eqn:Hu; cbn.
  - pose proof (degree_sum_insert_Some u (<[v:=w]> nbrs) nbrs G Hu).
    pose proof (degree_insert_le u v w nbrs). destruct (decide (u = v)); lia.
  - rewrite degree_sum_insert_None by done.
    pose proof (degree_insert_le u v w ∅) as Hd.
    rewrite degree_empty in Hd. destruct (decide (u = v)); lia.
Qed.

Lemma degree_sum_set_adj_present u v w G :
  is_Some (Nx.weight G u v) →
  Nx.degree_sum (Nx.set_adj u v w G) = Nx.degree_sum G.
Proof.
  unfold Nx.weight, Nx.set_adj. intros [w0 Hw].
  destruct (G !! u) as [nbrs|] eqn:Hu; [|done]. cbn in Hw. cbn.
  pose proof (degree_sum_insert_Some u (<[v:=w]> nbrs) nbrs G Hu) as Hs.
  rewrite (degree_insert_present u v w nbrs) in Hs by eauto. lia.
Qed.

(** One [add_edge] adds at most one edge. *)
Lemma number_of_edges_add_edge u v w G :
  Nx.number_of_edges (Nx.add_edge u v w G) ≤ S (Nx.number_of_edges G).
Proof.
  unfold Nx.number_of_edges, Nx.add_edge.
  set (G2 := Nx.add_node v (Nx.add_node u G)).
  assert (Nx.degree_sum G2 = Nx.degree_sum G) as HG2
    by (unfold G2; by rewrite !degree_sum_add_node).
  assert (Nx.degree_sum (Nx.set_adj v u w (Nx.set_adj u v w G2))
          ≤ Nx.degree_sum G + 2) as Hle.
  { destruct (decide (u = v)) as [->|Hne].
    - rewrite degree_sum_set_adj_present.
      + pose proof (degree_sum_set_adj v v w G2) as [_ H].
        rewrite decide_True in H by done. lia.
      + rewrite weight_set_adj, decide_True by done. eauto.
    - pose proof (degree_sum_set_adj u v w G2) as [_ H1].
      pose proof (degree_sum_set_adj v u w (Nx.set_adj u v w G2)) as [_ H2].
      rewrite decide_False in H1 by done.
      rewrite decide_False in H2 by congruence. lia. }
  replace (S (Nx.degree_sum G / 2)) with ((Nx.degree_sum G + 2) / 2).
  - by apply Nat.Div0.div_le_mono.
  - replace (Nx.degree_sum G + 2) with (Nx.degree_sum G + 1 * 2) by lia.
    rewrite Nat.div_add by lia. lia.
Qed.

(** Adding an edge that is already there leaves the number of edges as
    it is. *)
Lemma number_of_edges_add_edge_present u v w G :
  is_Some (Nx.weight G u v) → is_Some (Nx.weight G v u) →
  Nx.number_of_edges (Nx.add_edge u v w G) = Nx.number_of_edges G.
Proof.
  intros Huv Hvu. unfold Nx.number_of_edges, Nx.add_edge. f_equal.
  rewrite !degree_sum_set_adj_present, !degree_sum_add_node; [done|..].
  - by rewrite !weight_add_node.
  - rewrite weight_set_adj, !weight_add_node. case_decide; eauto.
Qed.
End Graph.

(* ===================================================================== *)
(** ** Strings, lines and the history file *)
(* ===================================================================== *)

Section Strings.
Implicit Types (s t x y : string) (c : ascii).

Lemma append_cons c s t : String c s +:+ t = String c (s +:+ t).
Proof. done. Qed.

Lemma append_nil_r s : s +:+ "" = s.
Proof. induction s as [|c s IH]; [done|]. by rewrite append_cons, IH. Qed.

Lemma list_ascii_append s t :
  list_ascii_of_string (s +:+ t)
  = (list_ascii_of_string s ++ list_ascii_of_string t)%list.
Proof.
  induction s as [|c s IH]; [done|]. rewrite append_cons. cbn. by rewrite IH.
Qed.

Lemma no_lf_append s t : no_lf (s +:+ t) = no_lf s && no_lf t.
Proof.
  induction s as [|c s IH]; [done|]. rewrite append_cons. cbn.
  rewrite IH. by rewrite andb_assoc.
Qed.

Lemma blank_append s t : blank (s +:+ t) = blank s && blank t.
Proof.
  induction s as [|c s IH]; [done|]. rewrite append_cons. cbn.
  rewrite IH. by rewrite andb_assoc.
Qed.

Lemma lines_cons s : ∃ l ls, lines s = l :: ls.
Proof.
  induction s as [|c s (l & ls & IH)]; [by eexists _, _|].
  cbn. destruct (Ascii.eqb c "010"); [by eexists _, _|].
  rewrite IH. by eexists _, _.
Qed.

(** A line followed by a line feed is the first line of the text. *)
Lemma lines_line s t : no_lf s = true → lines (s +:+ LF +:+ t) = s :: lines t.
Proof.
  induction s as [|c s IH]; intros Hs; [done|].
  cbn in Hs. apply andb_prop in Hs as [Hc Hs].
  rewrite append_cons. cbn. destruct (Ascii.eqb c "010"); [done|].
  by rewrite IH.
Qed.

Lemma blocks_entry a b ls :
  blank a = false → blank b = false →
  blocks [] (a :: b :: "" :: ls) = [a; b] :: blocks [] ls.
Proof. intros Ha Hb. cbn. by rewrite Ha, Hb. Qed.

(** Reading back what the dump wrote returns the history, provided every
    argument is one non-blank line. *)
Lemma parse_write_history (h : list (string * string)) :
  Forall (λ e, argument_line e.1 ∧ argument_line e.2) h →
  parse_history (write_history h) = Some h.
Proof.
  unfold parse_history. induction 1 as [|[a b] h [[Ha1 Ha2] [Hb1 Hb2]] _ IH];
    [done|].
  cbn [write_history foldr fst snd] in *.
  rewrite lines_line by done. rewrite lines_line by done.
  change (LF +:+ ?t) with (String "010" t).
  cbn [lines]. cbn [Ascii.eqb Bool.eqb].
  rewrite blocks_entry by done. cbn [mapM block_pair].
  fold (write_history h). rewrite IH. done.
Qed.
End Strings.

(* ===================================================================== *)
(** ** Sampling and one debate cycle *)
(* ===================================================================== *)

Section Sampling.
#[local] Open Scope nat_scope.
Context {A : Type}.
Implicit Types (seq population : list A).

Lemma choice_Returned seq r :
  seq ≠ [] → ∃ x, Py.choice seq r = Returned x ∧ x ∈ seq.
Proof.
  intros Hne. unfold Py.choice, Py.randbelow.
  assert (r mod length seq < length seq) as Hlt.
  { apply Nat.mod_upper_bound. by destruct seq. }
  apply lookup_lt_is_Some_2 in Hlt as [x Hx]. rewrite Hx.
  exists x. split; [done|]. by eapply list_elem_of_lookup_2.
Qed.

Lemma sample_positions_spec n r1 r2 :
  2 ≤ n →
  (Py.sample_positions n r1 r2).1 < n
  ∧ (Py.sample_positions n r1 r2).2 < n
  ∧ (Py.sample_positions n r1 r2).1 ≠ (Py.sample_positions n r1 r2).2.
Proof.
  intros Hn. unfold Py.sample_positions, Py.randbelow. cbn [fst snd].
  assert (r1 mod n < n) by (apply Nat.mod_upper_bound; lia).
  assert (r2 mod (n - 1) < n - 1) by (apply Nat.mod_upper_bound; lia).
  destruct (Nat.eqb_spec (r2 mod (n - 1)) (r1 mod n)); lia.
Qed.

Lemma sample2_Returned population r1 r2 :
  2 ≤ length population →
  ∃ i x j y, Py.sample2 population r1 r2 = Returned ((i, x), (j, y))
    ∧ population !! i = Some x ∧ population !! j = Some y ∧ i ≠ j.
Proof.
  intros Hn. unfold Py.sample2.
  destruct (Nat.ltb_spec (length population) 2); [lia|].
  pose proof (sample_positions_spec (length population) r1 r2 Hn) as (H1 & H2 & Hne).
  destruct (Py.sample_positions (length population) r1 r2) as [j1 j2].
  cbn [fst snd] in *.
  apply lookup_lt_is_Some_2 in H1 as [x Hx], H2 as [y Hy]. rewrite Hx, Hy.
  by exists j1, x, j2, y.
Qed.

Lemma sample2_Raised population r1 r2 :
  length population < 2 → Py.sample2 population r1 r2 = Raised ValueError.
Proof.
  intros Hn. unfold Py.sample2.
  by destruct (Nat.ltb_spec (length population) 2); [|lia].
Qed.
End Sampling.

Section Engine.
#[local] Open Scope nat_scope.
Context {tensor : Type}.
Variable encode : string → tensor.
Variable pytorch_cos_sim : tensor → tensor → float.
Implicit Types (self : DebateEngine) (d : debate) (rnd : draws) (v : script).

Lemma synthesize_Returned stop self rnd :
  2 ≤ length (agents self) →
  ∃ d, synthesize encode pytorch_cos_sim stop self rnd = Returned d
     ∧ synthesized encode pytorch_cos_sim stop self d.
Proof.
  intros Hn. unfold synthesize.
  destruct (sample2_Returned (agents self) (pick1 rnd) (pick2 rnd) Hn)
    as (i & x & j & y & -> & Hi & Hj & Hij).
  destruct (choice_Returned TOPICS (pick_topic rnd)) as (t & -> & Ht); [done|].
  destruct (choice_Returned STANCES1 (pick_stance1 rnd)) as (s1 & -> & Hs1); [done|].
  destruct (choice_Returned STANCES2 (pick_stance2 rnd)) as (s2 & -> & Hs2); [done|].
  eexists. split; [done|]. split; cbn; eauto.
Qed.

Lemma synthesize_Raised stop self rnd :
  length (agents self) < 2 →
  synthesize encode pytorch_cos_sim stop self rnd = Raised ValueError.
Proof. intros Hn. unfold synthesize. by rewrite sample2_Raised. Qed.

(** With at least two agents both scripts run the same cycle, up to the
    full stop. *)
Lemma run_debate_cycle_eq v self rnd :
  2 ≤ length (agents self) →
  run_debate_cycle encode pytorch_cos_sim v self rnd
  = d ← synthesize encode pytorch_cos_sim (stop_of v) self rnd;
    Returned (evolve self d).
Proof.
  intros Hn. destruct v; [done|]. cbn.
  unfold AiEngineWorking.run_debate_cycle.
  by destruct (Nat.ltb_spec (length (agents self)) 2); [lia|].
Qed.

Lemma run_debate_cycle_Returned v self rnd :
  2 ≤ length (agents self) →
  ∃ d, synthesize encode pytorch_cos_sim (stop_of v) self rnd = Returned d
     ∧ synthesized encode pytorch_cos_sim (stop_of v) self d
     ∧ run_debate_cycle encode pytorch_cos_sim v self rnd
       = Returned (evolve self d).
Proof.
  intros Hn. rewrite run_debate_cycle_eq by done.
  destruct (synthesize_Returned (stop_of v) self rnd Hn) as (d & -> & Hd).
  by exists d.
Qed.

Lemma agents_evolve self d :
  agents (evolve self d)
  = if Py.gt (similarity d) 0.7 then
      <[pos1 d := adopt (a1 d) (arg2 d)
                    (Py.min 1.0 (adaptability (a1 d) + 0.1))]> (agents self)
    else
      <[pos2 d := adopt (a2 d) (arg1 d)
                    (Py.max 0.1 (adaptability (a2 d) - 0.1))]> (agents self).
Proof. done. Qed.

Lemma length_agents_evolve self d :
  length (agents (evolve self d)) = length (agents self).
Proof.
  rewrite agents_evolve. destruct (Py.gt (similarity d) 0.7); apply length_insert.
Qed.

Lemma evolve_increase stop self d :
  synthesized encode pytorch_cos_sim stop self d →
  Py.gt (similarity d) 0.7 = true →
  adopt_and_increase self (evolve self d) d.
Proof.
  intros [H1 H2 Hne _ _ _ _] Hgt.
  unfold adopt_and_increase, adopted, others_unchanged.
  rewrite agents_evolve, Hgt. split; [|split].
  - exists (a1 d). split; [done|]. apply list_lookup_insert_eq.
    by eapply lookup_lt_Some.
  - apply length_insert.
  - intros j Hj. by apply list_lookup_insert_ne.
Qed.

Lemma evolve_decrease stop self d :
  synthesized encode pytorch_cos_sim stop self d →
  Py.gt (similarity d) 0.7 = false →
  adopt_and_decrease self (evolve self d) d.
Proof.
  intros [H1 H2 Hne _ _ _ _] Hgt.
  unfold adopt_and_decrease, adopted, others_unchanged.
  rewrite agents_evolve, Hgt. split; [|split].
  - exists (a2 d). split; [done|]. apply list_lookup_insert_eq.
    by eapply lookup_lt_Some.
  - apply length_insert.
  - intros j Hj. by apply list_lookup_insert_ne.
Qed.
End Engine.

(* ===================================================================== *)
(** ** The synthesized arguments *)
(* ===================================================================== *)

(** Case analysis on membership in a literal list. *)
Ltac elem_cases H :=
  repeat (apply elem_of_cons in H as [->|H]); [..|by apply elem_of_nil in H].

Section Arguments.
Implicit Types (r t s stop : string) (v : script).

Lemma list_ascii_inj s t :
  list_ascii_of_string s = list_ascii_of_string t → s = t.
Proof.
  intros H. by rewrite <- (string_of_list_ascii_of_string s), H,
    string_of_list_ascii_of_string.
Qed.

(** The two templates never produce the same text: after the common
    ending, an argument ends in a stance word of the first set and a
    counter-argument in one of the second set, and the last letters of
    the two sets differ. *)
Lemma args_differ stop r1 r2 t1 t2 s1 s2 :
  s1 ∈ STANCES1 → s2 ∈ STANCES2 →
  r1 +:+ " argues: " +:+ t1 +:+ " is " +:+ s1 +:+ stop
  ≠ r2 +:+ " counters: " +:+ t2 +:+ " is " +:+ s2 +:+ stop.
Proof.
  intros Hs1 Hs2 Heq. apply (f_equal list_ascii_of_string) in Heq.
  rewrite !list_ascii_append, !(assoc_L (++)%list) in Heq.
  apply app_inv_tail in Heq. apply (f_equal reverse) in Heq.
  rewrite !reverse_app in Heq.
  unfold STANCES1 in Hs1. unfold STANCES2 in Hs2.
  elem_cases Hs1; elem_cases Hs2; by cbn in Heq.
Qed.

Lemma no_lf_topic t : t ∈ TOPICS → no_lf t = true.
Proof. intros H. unfold TOPICS in H. by elem_cases H. Qed.

Lemma no_lf_stance1 s : s ∈ STANCES1 → no_lf s = true.
Proof. intros H. unfold STANCES1 in H. by elem_cases H. Qed.

Lemma no_lf_stance2 s : s ∈ STANCES2 → no_lf s = true.
Proof. intros H. unfold STANCES2 in H. by elem_cases H. Qed.

Lemma argument_line_role r : r ∈ ROLES → argument_line r.
Proof. intros H. unfold ROLES in H. by elem_cases H. Qed.

Lemma argument_line_append r rest :
  argument_line r → no_lf rest = true → argument_line (r +:+ rest).
Proof.
  intros [H1 H2] H3. split.
  - by rewrite no_lf_append, H1, H3.
  - by rewrite blank_append, H2.
Qed.

Lemma argument_line_arg1 v r t s :
  r ∈ ROLES → t ∈ TOPICS → s ∈ STANCES1 →
  argument_line (r +:+ " argues: " +:+ t +:+ " is " +:+ s +:+ stop_of v).
Proof.
  intros Hr Ht Hs. apply argument_line_append; [by apply argument_line_role|].
  rewrite !no_lf_append, (no_lf_topic t), (no_lf_stance1 s) by done. by destruct v.
Qed.

Lemma argument_line_arg2 v r t s :
  r ∈ ROLES → t ∈ TOPICS → s ∈ STANCES2 →
  argument_line (r +:+ " counters: " +:+ t +:+ " is " +:+ s +:+ stop_of v).
Proof.
  intros Hr Ht Hs. apply argument_line_append; [by apply argument_line_role|].
  rewrite !no_lf_append, (no_lf_topic t), (no_lf_stance2 s) by done. by destruct v.
Qed.
End Arguments.

(* ===================================================================== *)
(** ** Invariants of a run *)
(* ===================================================================== *)

Section Invariants.
#[local] Open Scope nat_scope.
Context {tensor : Type}.
Variable encode : string → tensor.
Variable pytorch_cos_sim : tensor → tensor → float.
Implicit Types (s self : DebateEngine) (d : debate) (rnd : draws) (v : script).

Lemma engine_inv_init uuid4 uniform :
  engine_inv (DebateEngine_init uuid4 uniform).
Proof.
  split; cbn [DebateEngine_init agents knowledge_graph debate_history].
  - done.
  - constructor.
  - intros n. unfold Nx.weight, Nx.empty. by rewrite lookup_empty.
  - unfold Nx.number_of_edges, Nx.degree_sum, Nx.empty.
    by rewrite map_fold_empty.
Qed.

Lemma length_agents_inv s : engine_inv s → length (agents s) = 8.
Proof.
  intros [Hr _ _ _]. apply (f_equal length) in Hr.
  by rewrite length_fmap in Hr.
Qed.

Lemma role_in_ROLES s i a :
  engine_inv s → agents s !! i = Some a → role a ∈ ROLES.
Proof.
  intros [Hr _ _ _] Hi. rewrite <- Hr.
  apply list_elem_of_fmap. exists a. split; [done|].
  by eapply list_elem_of_lookup_2.
Qed.

Lemma roles_evolve self d stop :
  synthesized encode pytorch_cos_sim stop self d →
  role <$> agents (evolve self d) = role <$> agents self.
Proof.
  intros [H1 H2 _ _ _ _ _]. rewrite agents_evolve.
  destruct (Py.gt (similarity d) 0.7); rewrite list_fmap_insert; cbn [adopt role];
    apply list_insert_id; by rewrite list_lookup_fmap, ?H1, ?H2.
Qed.

(** One cycle keeps the engine invariant. *)
Lemma engine_inv_evolve v s d :
  engine_inv s → synthesized encode pytorch_cos_sim (stop_of v) s d →
  engine_inv (evolve s d).
Proof.
  intros Hinv Hd. pose proof Hinv as [Hr Hh Hl He].
  pose proof Hd as [H1 H2 Hne Ht (s1 & Hs1 & Ha1) (s2 & Hs2 & Ha2) _].
  pose proof (role_in_ROLES s _ _ Hinv H1) as Hr1.
  pose proof (role_in_ROLES s _ _ Hinv H2) as Hr2.
  assert (arg1 d ≠ arg2 d) as Hdiff.
  { rewrite Ha1, Ha2. by apply args_differ. }
  split.
  - by rewrite (roles_evolve s d (stop_of v)).
  - cbn [evolve debate_history]. apply Forall_app. split; [done|].
    constructor; [|constructor]. cbv beta. cbn [fst snd]. split; [|split]; [| |done].
    + rewrite Ha1. by apply argument_line_arg1.
    + rewrite Ha2. by apply argument_line_arg2.
  - intros n. cbn [evolve knowledge_graph]. rewrite weight_add_edge.
    rewrite decide_False; [done|]. intros [[? ?]|[? ?]]; apply Hdiff; congruence.
  - cbn [evolve knowledge_graph debate_history]. rewrite length_app. cbn [length].
    pose proof (number_of_edges_add_edge (arg1 d) (arg2 d) (similarity d)
                  (knowledge_graph s)). lia.
Qed.

Lemma clamped_init uuid4 uniform :
  (∀ k, k < 8 → between 0.3 0.9 (uniform k)) →
  clamped (DebateEngine_init uuid4 uniform).
Proof.
  intros Hu. unfold clamped. cbn [DebateEngine_init agents ROLES imap].
  repeat constructor; cbn [ThoughtAgent_init adaptability];
    apply between_widen, Hu; lia.
Qed.

(** One cycle keeps every adaptability in the clamping range. *)
Lemma clamped_evolve stop s d :
  clamped s → synthesized encode pytorch_cos_sim stop s d →
  clamped (evolve s d).
Proof.
  unfold clamped. intros Hc [H1 H2 _ _ _ _ _]. rewrite agents_evolve.
  destruct (Py.gt (similarity d) 0.7); apply Forall_insert; try done;
    cbn [adopt adaptability].
  - apply between_min. by eapply (Forall_lookup_1 _ _ _ _ Hc).
  - apply between_max. by eapply (Forall_lookup_1 _ _ _ _ Hc).
Qed.

(** An invariant of the cycle, indexed by the number of completed cycles,
    holds after the loop, and the loop returns. *)
Lemma main_loop_invariant v (P : nat → DebateEngine → Prop) :
  (∀ n s, P n s → 2 ≤ length (agents s)) →
  (∀ n s d, P n s → synthesized encode pytorch_cos_sim (stop_of v) s d →
            P (S n) (evolve s d)) →
  ∀ rnds n s0, P n s0 →
    ∃ s, main_loop encode pytorch_cos_sim v s0 rnds = Returned s
       ∧ P (n + length rnds) s.
Proof.
  intros Hlen Hstep. induction rnds as [|rnd rnds IH]; intros n s0 H0.
  - exists s0. split; [done|]. by rewrite Nat.add_0_r.
  - cbn [main_loop].
    destruct (run_debate_cycle_Returned encode pytorch_cos_sim v s0 rnd)
      as (d & _ & Hd & ->); [by eapply Hlen|].
    cbn [mbind result_bind Py.bind].
    destruct (IH (S n) (evolve s0 d)) as (s & Hs & HP); [by eapply Hstep|].
    exists s. split; [done|]. cbn [length].
    by replace (n + S (length rnds)) with (S n + length rnds) by lia.
Qed.

(** Every run of either script returns, in a state that satisfies the
    engine invariant and has one history entry per cycle. *)
Lemma run_engine_inv v uuid4 uniform rnds :
  ∃ s, run encode pytorch_cos_sim v uuid4 uniform rnds = Returned s
     ∧ engine_inv s ∧ length (debate_history s) = length rnds.
Proof.
  destruct (main_loop_invariant v
              (λ n s, engine_inv s ∧ length (debate_history s) = n))
    with (rnds := rnds) (n := 0) (s0 := DebateEngine_init uuid4 uniform)
    as (s & Hs & Hinv & Hlen).
  - intros n s [Hinv _]. rewrite (length_agents_inv s Hinv). lia.
  - intros n s d [Hinv Hn] Hd. split; [by eapply engine_inv_evolve|].
    cbn [evolve debate_history]. rewrite length_app. cbn [length]. lia.
  - split; [apply engine_inv_init|done].
  - by exists s.
Qed.

Lemma run_clamped v uuid4 uniform rnds :
  (∀ k, k < 8 → between 0.3 0.9 (uniform k)) →
  ∃ s, run encode pytorch_cos_sim v uuid4 uniform rnds = Returned s
     ∧ engine_inv s ∧ clamped s.
Proof.
  intros Hu.
  destruct (main_loop_invariant v (λ _ s, engine_inv s ∧ clamped s))
    with (rnds := rnds) (n := 0) (s0 := DebateEngine_init uuid4 uniform)
    as (s & Hs & Hinv & Hc).
  - intros n s [Hinv _]. rewrite (length_agents_inv s Hinv). lia.
  - intros n s d [Hinv Hn] Hd.
    split; [by eapply engine_inv_evolve|by eapply clamped_evolve].
  - split; [apply engine_inv_init|by apply clamped_init].
  - by exists s.
Qed.
End Invariants.

(* ===================================================================== *)
(** ** Frame lemmas for one cycle *)
(* ===================================================================== *)

Lemma append_assoc (s t x : string) : (s +:+ t) +:+ x = s +:+ (t +:+ x).
Proof.
  induction s as [|c s IH]; [done|]. by rewrite !append_cons, IH.
Qed.

Lemma adaptability_changed_adopted self self' i arg f a :
  agents self !! i = Some a → adopted self self' i arg f →
  adaptability_changed self self' i ↔ f (adaptability a) ≠ adaptability a.
Proof.
  intros Ha (a' & Ha' & Hnew). unfold adaptability_changed.
  rewrite Hnew, Ha. cbn. assert (a' = a) as -> by congruence.
  split; intros H; congruence.
Qed.

Lemma adaptability_unchanged_others self self' i j :
  others_unchanged self self' i → j ≠ i → ¬ adaptability_changed self self' j.
Proof.
  intros [_ Hother] Hne Hch. apply Hch. by rewrite Hother.
Qed.

(* ===================================================================== *)
(** ** The properties of the debate loop *)
(* ===================================================================== *)

(** C1.  Evolution rule of a completed cycle.  With at least two agents the
    cycle completes; when the similarity is strictly greater than 0.7,
    agent1 appends agent2's argument to its beliefs and its adaptability
    becomes [min(1.0, old + 0.1)]; otherwise, and in particular whenever
    the similarity is less than or equal to 0.7, agent2 appends agent1's
    argument and its adaptability becomes [max(0.1, old - 0.1)].  A model
    whose similarity is always 0.75 takes the first branch, one whose
    similarity is always 0.5 the second. *)
Theorem C1_evolution_rule {tensor : Type} (encode : string → tensor)
    (pytorch_cos_sim : tensor → tensor → float)
    (v : script) (self : DebateEngine) (rnd : draws) :
  (2 ≤ length (agents self))%nat →
  ∃ d self',
    synthesize encode pytorch_cos_sim (stop_of v) self rnd = Returned d
    ∧ run_debate_cycle encode pytorch_cos_sim v self rnd = Returned self'
    ∧ (Py.gt (similarity d) 0.7 = true → adopt_and_increase self self' d)
    ∧ (Py.gt (similarity d) 0.7 = false → adopt_and_decrease self self' d)
    ∧ (Py.le (similarity d) 0.7 = true → adopt_and_decrease self self' d)
    ∧ ((∀ x y, pytorch_cos_sim x y = 0.75%float) → adopt_and_increase self self' d)
    ∧ ((∀ x y, pytorch_cos_sim x y = 0.5%float) → adopt_and_decrease self self' d).
Proof.
  intros Hn.
  destruct (run_debate_cycle_Returned encode pytorch_cos_sim v self rnd Hn)
    as (d & Hs & Hd & Hc).
  exists d, (evolve self d). split; [done|]. split; [done|].
  pose proof (evolve_increase encode pytorch_cos_sim _ self d Hd) as Hinc.
  pose proof (evolve_decrease encode pytorch_cos_sim _ self d Hd) as Hdec.
  split_and!; try done.
  - intros Hle. by apply Hdec, le_not_gt.
  - intros Hstub. apply Hinc. by rewrite (syn_similarity _ _ _ _ _ Hd), Hstub.
  - intros Hstub. apply Hdec. by rewrite (syn_similarity _ _ _ _ _ Hd), Hstub.
Qed.

Lemma C1_evolution_rule_witness :
  ∃ d self',
    synthesize stub_encode (stub_cos_sim 0.75) (stop_of ai_engine)
      (example_engine 0.6) rnd_zero = Returned d
    ∧ run_debate_cycle stub_encode (stub_cos_sim 0.75) ai_engine
        (example_engine 0.6) rnd_zero = Returned self'
    ∧ (Py.gt (similarity d) 0.7 = true
       → adopt_and_increase (example_engine 0.6) self' d)
    ∧ (Py.gt (similarity d) 0.7 = false
       → adopt_and_decrease (example_engine 0.6) self' d)
    ∧ (Py.le (similarity d) 0.7 = true
       → adopt_and_decrease (example_engine 0.6) self' d)
    ∧ ((∀ x y, stub_cos_sim 0.75 x y = 0.75%float)
       → adopt_and_increase (example_engine 0.6) self' d)
    ∧ ((∀ x y, stub_cos_sim 0.75 x y = 0.5%float)
       → adopt_and_decrease (example_engine 0.6) self' d).
Proof.
  apply (C1_evolution_rule stub_encode (stub_cos_sim 0.75) ai_engine
           (example_engine 0.6) rnd_zero).
  vm_compute. lia.
Defined.

(** C2 (as the code has it).  In a completed cycle exactly one belief
    sequence grows, by exactly one entry: that of agent1 when the
    similarity exceeds 0.7, that of agent2 otherwise.  Only that agent's
    adaptability can change, and with every adaptability in [0.1, 1.0] it
    does change unless it already sits on the clamping bound (1.0 when
    increasing, 0.1 when decreasing); then no adaptability changes at all.
    The other sampled agent and every agent that was not sampled are
    exactly as before. *)
Theorem C2_one_agent_mutated {tensor : Type} (encode : string → tensor)
    (pytorch_cos_sim : tensor → tensor → float)
    (v : script) (self : DebateEngine) (rnd : draws) :
  (2 ≤ length (agents self))%nat →
  clamped self →
  ∃ d self',
    synthesize encode pytorch_cos_sim (stop_of v) self rnd = Returned d
    ∧ run_debate_cycle encode pytorch_cos_sim v self rnd = Returned self'
    ∧ pos1 d ≠ pos2 d
    ∧ (Py.gt (similarity d) 0.7 = true →
         adopt_and_increase self self' d
         ∧ (adaptability_changed self self' (pos1 d)
            ↔ adaptability (a1 d) ≠ 1.0%float)
         ∧ ¬ adaptability_changed self self' (pos2 d))
    ∧ (Py.gt (similarity d) 0.7 = false →
         adopt_and_decrease self self' d
         ∧ (adaptability_changed self self' (pos2 d)
            ↔ adaptability (a2 d) ≠ 0.1%float)
         ∧ ¬ adaptability_changed self self' (pos1 d)).
Proof.
  intros Hn Hc.
  destruct (run_debate_cycle_Returned encode pytorch_cos_sim v self rnd Hn)
    as (d & Hs & Hd & Hcyc).
  exists d, (evolve self d). split; [done|]. split; [done|].
  pose proof Hd as [H1 H2 Hne _ _ _ _]. split; [done|].
  split; intros Hgt.
  - pose proof (evolve_increase encode pytorch_cos_sim _ self d Hd Hgt)
      as [Hadopt Hothers].
    split; [done|]. split.
    + rewrite (adaptability_changed_adopted _ _ _ _ _ _ H1 Hadopt).
      apply min_changes. by eapply (Forall_lookup_1 _ _ _ _ Hc).
    + by eapply adaptability_unchanged_others.
  - pose proof (evolve_decrease encode pytorch_cos_sim _ self d Hd Hgt)
      as [Hadopt Hothers].
    split; [done|]. split.
    + rewrite (adaptability_changed_adopted _ _ _ _ _ _ H2 Hadopt).
      apply max_changes. by eapply (Forall_lookup_1 _ _ _ _ Hc).
    + by eapply adaptability_unchanged_others.
Qed.

Lemma C2_one_agent_mutated_witness :
  ∃ d self',
    synthesize stub_encode (stub_cos_sim 0.5) (stop_of ai_engine_working)
      pair_engine_used rnd_zero = Returned d
    ∧ run_debate_cycle stub_encode (stub_cos_sim 0.5) ai_engine_working
        pair_engine_used rnd_zero = Returned self'
    ∧ pos1 d ≠ pos2 d
    ∧ (Py.gt (similarity d) 0.7 = true →
         adopt_and_increase pair_engine_used self' d
         ∧ (adaptability_changed pair_engine_used self' (pos1 d)
            ↔ adaptability (a1 d) ≠ 1.0%float)
         ∧ ¬ adaptability_changed pair_engine_used self' (pos2 d))
    ∧ (Py.gt (similarity d) 0.7 = false →
         adopt_and_decrease pair_engine_used self' d
         ∧ (adaptability_changed pair_engine_used self' (pos2 d)
            ↔ adaptability (a2 d) ≠ 0.1%float)
         ∧ ¬ adaptability_changed pair_engine_used self' (pos1 d)).
Proof.
  apply (C2_one_agent_mutated stub_encode (stub_cos_sim 0.5) ai_engine_working
           pair_engine_used rnd_zero).
  - vm_compute. lia.
  - unfold clamped, between. vm_compute. repeat constructor.
Defined.

(** C2, counterexample to the claim as stated.  In [ai_engine.py] with a
    model of constant similarity 0.75, start from adaptabilities 0.9 and
    run one cycle: the first agent reaches 1.0.  In the next cycle on the
    same draws it adopts again and [min(1.0, 1.0 + 0.1)] is 1.0: neither
    sampled agent's adaptability changes. *)
Lemma C2_counterexample :
  ∃ s1 d s2,
    run stub_encode (stub_cos_sim 0.75) ai_engine stub_uuid4 (λ _, 0.9%float)
      [rnd_zero] = Returned s1
    ∧ synthesize stub_encode (stub_cos_sim 0.75) "" s1 rnd_zero = Returned d
    ∧ AiEngine.run_debate_cycle stub_encode (stub_cos_sim 0.75) s1 rnd_zero
      = Returned s2
    ∧ ¬ exactly_one_adaptability_changes s1 s2 d.
Proof.
  eexists _, _, _. split; [by vm_compute|]. split; [by vm_compute|].
  split; [by vm_compute|].
  intros [[H _]|[_ H]]; apply H; by vm_compute.
Qed.

(** C3.  When the initial draws of [random.uniform(0.3, 0.9)] lie in
    [0.3, 0.9], a run of any number of cycles of either script returns, and
    in the engine it returns every agent's adaptability lies in
    [0.1, 1.0]. *)
Theorem C3_adaptability_clamped {tensor : Type} (encode : string → tensor)
    (pytorch_cos_sim : tensor → tensor → float)
    (v : script) (uuid4 : nat → string) (uniform : nat → float)
    (rnds : list draws) :
  (∀ k, (k < 8)%nat → between 0.3 0.9 (uniform k)) →
  ∃ s, run encode pytorch_cos_sim v uuid4 uniform rnds = Returned s
     ∧ ∀ a, a ∈ agents s →
         Py.le 0.1 (adaptability a) = true ∧ Py.le (adaptability a) 1.0 = true.
Proof.
  intros Hu.
  destruct (run_clamped encode pytorch_cos_sim v uuid4 uniform rnds Hu)
    as (s & Hs & _ & Hc).
  exists s. split; [done|]. intros a Ha.
  unfold clamped in Hc. rewrite Forall_forall in Hc. by apply Hc.
Qed.

Lemma C3_adaptability_clamped_witness :
  ∃ s, run stub_encode (stub_cos_sim 0.5) ai_engine stub_uuid4 (λ _, 0.3%float)
         [rnd_zero; rnd_zero; rnd_other; rnd_zero] = Returned s
     ∧ ∀ a, a ∈ agents s →
         Py.le 0.1 (adaptability a) = true ∧ Py.le (adaptability a) 1.0 = true.
Proof.
  apply (C3_adaptability_clamped stub_encode (stub_cos_sim 0.5) ai_engine
           stub_uuid4 (λ _, 0.3%float)).
  intros k _. by vm_compute.
Defined.

(** C4.  In a run of either script every cycle inserts exactly one edge
    into the knowledge graph, between its two arguments and weighted by
    their similarity, and appends exactly that pair to the history; the
    history has one entry per completed cycle and the graph never has more
    edges than the history has entries.  Inserting the edge of the same two
    arguments again with another similarity stores the new weight and
    leaves the number of edges as it is. *)
Theorem C4_graph_and_history {tensor : Type} (encode : string → tensor)
    (pytorch_cos_sim : tensor → tensor → float)
    (v : script) (uuid4 : nat → string) (uniform : nat → float)
    (rnds : list draws) (rnd : draws) (w' : float) :
  ∃ s d s',
    run encode pytorch_cos_sim v uuid4 uniform rnds = Returned s
    ∧ length (debate_history s) = length rnds
    ∧ (Nx.number_of_edges (knowledge_graph s) ≤ length (debate_history s))%nat
    ∧ synthesize encode pytorch_cos_sim (stop_of v) s rnd = Returned d
    ∧ run_debate_cycle encode pytorch_cos_sim v s rnd = Returned s'
    ∧ knowledge_graph s'
      = Nx.add_edge (arg1 d) (arg2 d) (similarity d) (knowledge_graph s)
    ∧ debate_history s' = (debate_history s ++ [(arg1 d, arg2 d)])%list
    ∧ (Nx.number_of_edges (knowledge_graph s') ≤ length (debate_history s'))%nat
    ∧ Nx.weight (knowledge_graph s') (arg1 d) (arg2 d) = Some (similarity d)
    ∧ Nx.number_of_edges (Nx.add_edge (arg1 d) (arg2 d) w' (knowledge_graph s'))
      = Nx.number_of_edges (knowledge_graph s')
    ∧ Nx.weight (Nx.add_edge (arg1 d) (arg2 d) w' (knowledge_graph s'))
        (arg1 d) (arg2 d) = Some w'.
Proof.
  destruct (run_engine_inv encode pytorch_cos_sim v uuid4 uniform rnds)
    as (s & Hs & Hinv & Hlen).
  destruct (run_debate_cycle_Returned encode pytorch_cos_sim v s rnd)
    as (d & Hsyn & Hd & Hcyc).
  { rewrite (length_agents_inv s Hinv). lia. }
  pose proof (engine_inv_evolve encode pytorch_cos_sim v s d Hinv Hd) as Hinv'.
  exists s, d, (evolve s d). split_and!; try done.
  - apply Hinv.
  - apply Hinv'.
  - cbn [evolve knowledge_graph]. rewrite weight_add_edge.
    by rewrite decide_True by tauto.
  - cbn [evolve knowledge_graph]. apply number_of_edges_add_edge_present;
      rewrite weight_add_edge, decide_True by tauto; eauto.
  - rewrite weight_add_edge. by rewrite decide_True by tauto.
Qed.

(** C5.  With fewer than two agents, [run_debate_cycle] of
    [ai_engine.working.py] returns without raising and leaves the engine
    (agents, knowledge graph and history) exactly as it was, so its loop
    goes on without effect; [run_debate_cycle] of [ai_engine.py] raises the
    [ValueError] of [random.sample], which nothing catches: the loop ends
    with it. *)
Theorem C5_fewer_than_two_agents {tensor : Type} (encode : string → tensor)
    (pytorch_cos_sim : tensor → tensor → float)
    (self : DebateEngine) (rnd : draws) (rnds : list draws) :
  (length (agents self) < 2)%nat →
  AiEngineWorking.run_debate_cycle encode pytorch_cos_sim self rnd = Returned self
  ∧ main_loop encode pytorch_cos_sim ai_engine_working self rnds = Returned self
  ∧ AiEngine.run_debate_cycle encode pytorch_cos_sim self rnd = Raised ValueError
  ∧ main_loop encode pytorch_cos_sim ai_engine self (rnd :: rnds)
    = Raised ValueError.
Proof.
  intros Hn.
  assert (∀ r, AiEngineWorking.run_debate_cycle encode pytorch_cos_sim self r
               = Returned self) as Hskip.
  { intros r. unfold AiEngineWorking.run_debate_cycle.
    by destruct (Nat.ltb_spec (length (agents self)) 2); [|lia]. }
  assert (AiEngine.run_debate_cycle encode pytorch_cos_sim self rnd
          = Raised ValueError) as Hraise.
  { unfold AiEngine.run_debate_cycle. by rewrite synthesize_Raised. }
  split_and!; [done| |done|].
  - induction rnds as [|r rnds IH]; [done|].
    cbn [main_loop run_debate_cycle]. by rewrite Hskip.
  - cbn [main_loop run_debate_cycle]. by rewrite Hraise.
Qed.

Lemma C5_fewer_than_two_agents_witness :
  AiEngineWorking.run_debate_cycle stub_encode (stub_cos_sim 0.75)
    lonely_engine rnd_zero = Returned lonely_engine
  ∧ main_loop stub_encode (stub_cos_sim 0.75) ai_engine_working
      lonely_engine [rnd_other; rnd_zero] = Returned lonely_engine
  ∧ AiEngine.run_debate_cycle stub_encode (stub_cos_sim 0.75)
      lonely_engine rnd_zero = Raised ValueError
  ∧ main_loop stub_encode (stub_cos_sim 0.75) ai_engine
      lonely_engine [rnd_zero; rnd_other; rnd_zero] = Raised ValueError.
Proof.
  apply (C5_fewer_than_two_agents stub_encode (stub_cos_sim 0.75)
           lonely_engine rnd_zero [rnd_other; rnd_zero]).
  vm_compute. lia.
Defined.




(** C7 (as the code has it).  In [ai_engine.py] argument1 is exactly the
    role of agent1, ["argues:"], the topic, ["is"] and a stance word of the
    first set, separated by single spaces, and argument2 is built likewise
    from agent2's role, ["counters:"], the same topic and a stance word of
    the second set.  In [ai_engine.working.py] both arguments are the same
    texts followed by a full stop. *)
Theorem C7_argument_templates {tensor : Type} (encode : string → tensor)
    (pytorch_cos_sim : tensor → tensor → float)
    (v : script) (self : DebateEngine) (rnd : draws) :
  (2 ≤ length (agents self))%nat →
  ∃ d s1 s2,
    synthesize encode pytorch_cos_sim (stop_of v) self rnd = Returned d
    ∧ topic d ∈ TOPICS ∧ s1 ∈ STANCES1 ∧ s2 ∈ STANCES2
    ∧ arg1 d = match v with
               | ai_engine => spec_argument1 (role (a1 d)) (topic d) s1
               | ai_engine_working =>
                   spec_argument1 (role (a1 d)) (topic d) s1 +:+ "."
               end
    ∧ arg2 d = match v with
               | ai_engine => spec_argument2 (role (a2 d)) (topic d) s2
               | ai_engine_working =>
                   spec_argument2 (role (a2 d)) (topic d) s2 +:+ "."
               end.
Proof.
  intros Hn.
  destruct (synthesize_Returned encode pytorch_cos_sim (stop_of v) self rnd Hn)
    as (d & Hs & Hd).
  pose proof Hd as [_ _ _ Ht (s1 & Hs1 & Ha1) (s2 & Hs2 & Ha2) _].
  exists d, s1, s2. split_and!; try done.
  - rewrite Ha1. unfold spec_argument1.
    destruct v; cbn [stop_of]; [by rewrite append_nil_r|].
    by rewrite !append_assoc.
  - rewrite Ha2. unfold spec_argument2.
    destruct v; cbn [stop_of]; [by rewrite append_nil_r|].
    by rewrite !append_assoc.
Qed.

Lemma C7_argument_templates_witness :
  ∃ d s1 s2,
    synthesize stub_encode (stub_cos_sim 0.75) (stop_of ai_engine_working)
      (example_engine 0.5) rnd_other = Returned d
    ∧ topic d ∈ TOPICS ∧ s1 ∈ STANCES1 ∧ s2 ∈ STANCES2
    ∧ arg1 d = spec_argument1 (role (a1 d)) (topic d) s1 +:+ "."
    ∧ arg2 d = spec_argument2 (role (a2 d)) (topic d) s2 +:+ ".".
Proof.
  apply (C7_argument_templates stub_encode (stub_cos_sim 0.75)
           ai_engine_working (example_engine 0.5) rnd_other).
  vm_compute. lia.
Defined.

(** C7, counterexample to the claim as stated.  The first cycle of
    [ai_engine.working.py] on [rnd_zero] records the argument
    ["Rationalist argues: consciousness is fundamental."]: the final full
    stop belongs to none of the parts, so the arguments are not the
    specified templates. *)
Lemma C7_counterexample :
  ∃ d s',
    synthesize stub_encode (stub_cos_sim 0.75) "." (example_engine 0.5) rnd_zero
    = Returned d
    ∧ AiEngineWorking.run_debate_cycle stub_encode (stub_cos_sim 0.75)
        (example_engine 0.5) rnd_zero = Returned s'
    ∧ debate_history s' = [(arg1 d, arg2 d)]
    ∧ arg1 d = "Rationalist argues: consciousness is fundamental."
    ∧ ¬ as_specified d.
Proof.
  eexists _, _. split; [by vm_compute|]. split; [by vm_compute|].
  split; [by vm_compute|]. split; [by vm_compute|].
  intros [(s1 & Hs1 & Heq) _]. unfold STANCES1 in Hs1.
  elem_cases Hs1; by vm_compute in Heq.
Qed.

(** C8.  Round trip of the history file: for the history of any run of
    either script, writing it out (argument1, argument2 and an empty line
    per entry, in order) and reading the text back as blocks of two
    non-blank lines separated by blank lines returns exactly that
    history. *)
Theorem C8_history_round_trip {tensor : Type} (encode : string → tensor)
    (pytorch_cos_sim : tensor → tensor → float)
    (v : script) (uuid4 : nat → string) (uniform : nat → float)
    (rnds : list draws) :
  ∃ s, run encode pytorch_cos_sim v uuid4 uniform rnds = Returned s
     ∧ parse_history (write_history (debate_history s))
       = Some (debate_history s).
Proof.
  destruct (run_engine_inv encode pytorch_cos_sim v uuid4 uniform rnds)
    as (s & Hs & [_ Hh _ _] & _).
  exists s. split; [done|]. apply parse_write_history.
  eapply Forall_impl; [exact Hh|]. intros e (H1 & H2 & _). by split.
Qed.

(** C9.  In every run of either script the two arguments of a cycle are
    different texts and the two sampled agents have different roles; so
    every history entry is a pair of two different strings and the
    knowledge graph has no self-loop. *)
Theorem C9_arguments_distinct {tensor : Type} (encode : string → tensor)
    (pytorch_cos_sim : tensor → tensor → float)
    (v : script) (uuid4 : nat → string) (uniform : nat → float)
    (rnds : list draws) (rnd : draws) :
  ∃ s d,
    run encode pytorch_cos_sim v uuid4 uniform rnds = Returned s
    ∧ Forall (λ e, e.1 ≠ e.2) (debate_history s)
    ∧ (∀ n, Nx.has_edge (knowledge_graph s) n n = false)
    ∧ synthesize encode pytorch_cos_sim (stop_of v) s rnd = Returned d
    ∧ arg1 d ≠ arg2 d
    ∧ role (a1 d) ≠ role (a2 d).
Proof.
  destruct (run_engine_inv encode pytorch_cos_sim v uuid4 uniform rnds)
    as (s & Hs & Hinv & _).
  destruct (synthesize_Returned encode pytorch_cos_sim (stop_of v) s rnd)
    as (d & Hsyn & Hd).
  { rewrite (length_agents_inv s Hinv). lia. }
  pose proof Hinv as [Hr Hh Hl _].
  pose proof Hd as [H1 H2 Hne _ (s1 & Hs1 & Ha1) (s2 & Hs2 & Ha2) _].
  exists s, d. split_and!; try done.
  - eapply Forall_impl; [exact Hh|]. by intros e (_ & _ & ?).
  - intros n. unfold Nx.has_edge. rewrite Hl. apply bool_decide_eq_false.
    by intros [? ?].
  - rewrite Ha1, Ha2. by apply args_differ.
  - intros Heq. apply Hne.
    assert (NoDup ROLES) as Hnd by (apply (bool_decide_unpack _); by vm_compute).
    rewrite <- Hr in Hnd.
    eapply (NoDup_lookup _ _ _ (role (a1 d)) Hnd);
      rewrite list_lookup_fmap, ?H1, ?H2; cbn; congruence.
Qed.

(** C10.  The synthesized arguments and their similarity do not depend on
    beliefs or adaptability: two engines whose agents have the same roles,
    position by position, give the same positions, topic, arguments and
    similarity on the same random draws and the same model (or raise the
    same exception). *)
Theorem C10_noninterference {tensor : Type} (encode : string → tensor)
    (pytorch_cos_sim : tensor → tensor → float)
    (v : script) (self1 self2 : DebateEngine) (rnd : draws) :
  role <$> agents self1 = role <$> agents self2 →
  same_debate (synthesize encode pytorch_cos_sim (stop_of v) self1 rnd)
              (synthesize encode pytorch_cos_sim (stop_of v) self2 rnd).
Proof.
  intros Hroles.
  assert (length (agents self1) = length (agents self2)) as Hlen.
  { apply (f_equal length) in Hroles. by rewrite !length_fmap in Hroles. }
  assert (∀ i x y, agents self1 !! i = Some x → agents self2 !! i = Some y →
                   role x = role y) as Hrole.
  { intros i x y Hx Hy. apply (f_equal (.!! i)) in Hroles.
    rewrite !list_lookup_fmap, Hx, Hy in Hroles. by injection Hroles. }
  unfold synthesize, Py.sample2. rewrite <- Hlen.
  destruct (length (agents self1) <? 2)%nat eqn:Hn; [done|].
  apply Nat.ltb_ge in Hn.
  pose proof (sample_positions_spec (length (agents self1)) (pick1 rnd)
                (pick2 rnd) Hn) as (Hi & Hj & _).
  destruct (Py.sample_positions (length (agents self1)) (pick1 rnd) (pick2 rnd))
    as [i j]. cbn [fst snd] in Hi, Hj.
  destruct (lookup_lt_is_Some_2 (agents self1) i Hi) as [x1 Hx1].
  destruct (lookup_lt_is_Some_2 (agents self1) j Hj) as [y1 Hy1].
  rewrite Hlen in Hi, Hj.
  destruct (lookup_lt_is_Some_2 (agents self2) i Hi) as [x2 Hx2].
  destruct (lookup_lt_is_Some_2 (agents self2) j Hj) as [y2 Hy2].
  rewrite Hx1, Hy1, Hx2, Hy2. cbn [mbind result_bind Py.bind].
  destruct (Py.choice TOPICS (pick_topic rnd)) as [t|e]; [|done].
  destruct (Py.choice STANCES1 (pick_stance1 rnd)) as [s1|e]; [|done].
  destruct (Py.choice STANCES2 (pick_stance2 rnd)) as [s2|e]; [|done].
  cbn. rewrite (Hrole i x1 x2), (Hrole j y1 y2) by done. done.
Qed.

Lemma C10_noninterference_witness :
  same_debate
    (synthesize stub_encode (stub_cos_sim 0.75) (stop_of ai_engine)
       pair_engine_fresh rnd_zero)
    (synthesize stub_encode (stub_cos_sim 0.75) (stop_of ai_engine)
       pair_engine_used rnd_zero).
Proof.
  apply (C10_noninterference stub_encode (stub_cos_sim 0.75) ai_engine
           pair_engine_fresh pair_engine_used rnd_zero).
  reflexivity.
Defined.

(* ===================================================================== *)
(** ** More about the graph, the run, the main blocks and the updates *)
(* ===================================================================== *)

#[local] Set Warnings "-clear-no-such-hyp".

Section GraphExact.
#[local] Open Scope nat_scope.
Implicit Types (G : Nx.Graph) (u v x y : string) (w : float)
  (nbrs : gmap string float).

Lemma degree_insert_fresh n v w nbrs :
  nbrs !! v = None → n ≠ v →
  Nx.degree n (<[v := w]> nbrs) = S (Nx.degree n nbrs).
Proof.
  intros Hv Hne. unfold Nx.degree.
  rewrite map_size_insert_None by done. by rewrite lookup_insert_ne.
Qed.

Lemma degree_sum_set_adj_fresh u v w G :
  Nx.weight G u v = None → u ≠ v →
  Nx.degree_sum (Nx.set_adj u v w G) = S (Nx.degree_sum G).
Proof.
  unfold Nx.weight, Nx.set_adj. intros Hw Hne.
  destruct (G !! u) as [nbrs|] eqn:Hu; cbn in Hw |- *.
  - pose proof (degree_sum_insert_Some u (<[v:=w]> nbrs) nbrs G Hu) as Hs.
    rewrite (degree_insert_fresh u v w nbrs) in Hs by done. lia.
  - rewrite degree_sum_insert_None by done.
    rewrite (degree_insert_fresh u v w ∅) by done. by rewrite degree_empty.
Qed.

(** A new edge between two different nodes raises the degree sum by two. *)
Lemma degree_sum_add_edge_fresh u v w G :
  Nx.weight G u v = None → Nx.weight G v u = None → u ≠ v →
  Nx.degree_sum (Nx.add_edge u v w G) = 2 + Nx.degree_sum G.
Proof.
  intros Huv Hvu Hne. unfold Nx.add_edge.
  rewrite degree_sum_set_adj_fresh; [|by rewrite weight_set_adj, decide_False,
    !weight_add_node by (intros [? ?]; congruence)|congruence].
  rewrite degree_sum_set_adj_fresh by (by rewrite ?weight_add_node).
  by rewrite !degree_sum_add_node.
Qed.

Lemma degree_sum_add_edge_present u v w G :
  is_Some (Nx.weight G u v) → is_Some (Nx.weight G v u) →
  Nx.degree_sum (Nx.add_edge u v w G) = Nx.degree_sum G.
Proof.
  intros Huv Hvu. unfold Nx.add_edge.
  rewrite !degree_sum_set_adj_present, !degree_sum_add_node; [done|..].
  - by rewrite !weight_add_node.
  - rewrite weight_set_adj, !weight_add_node. case_decide; eauto.
Qed.

Lemma dom_add_node n G : dom (Nx.add_node n G) = {[n]} ∪ dom G.
Proof.
  unfold Nx.add_node. destruct (G !! n) eqn:Hn.
  - assert (n ∈ dom G) by (apply elem_of_dom; eauto). set_solver.
  - by rewrite dom_insert_L.
Qed.

Lemma dom_set_adj u v w G : dom (Nx.set_adj u v w G) = {[u]} ∪ dom G.
Proof. unfold Nx.set_adj. by rewrite dom_insert_L. Qed.

(** The nodes after [add_edge]: the two ends and the nodes before. *)
Lemma dom_add_edge u v w G : dom (Nx.add_edge u v w G) = {[u; v]} ∪ dom G.
Proof.
  unfold Nx.add_edge. rewrite !dom_set_adj, !dom_add_node. set_solver.
Qed.
End GraphExact.

Section Entries.
Implicit Types (stop x y r t s : string).

Lemma elem_of_possible_entries stop x y :
  (x, y) ∈ possible_entries stop
  ↔ ∃ r1 r2 t s1 s2,
      r1 ∈ ROLES ∧ r2 ∈ ROLES ∧ r1 ≠ r2 ∧ t ∈ TOPICS
      ∧ s1 ∈ STANCES1 ∧ s2 ∈ STANCES2
      ∧ x = argues_text stop r1 t s1 ∧ y = counters_text stop r2 t s2.
Proof.
  unfold possible_entries. split.
  - intros (r1 & H & Hr1)%list_elem_of_bind.
    apply list_elem_of_bind in H as (r2 & H & Hr2).
    destruct (decide (r1 = r2)) as [|Hne]; [by apply elem_of_nil in H|].
    apply list_elem_of_bind in H as (t & H & Ht).
    apply list_elem_of_bind in H as (s1 & H & Hs1).
    apply list_elem_of_bind in H as (s2 & H & Hs2).
    apply list_elem_of_singleton in H. injection H as -> ->.
    by exists r1, r2, t, s1, s2.
  - intros (r1 & r2 & t & s1 & s2 & Hr1 & Hr2 & Hne & Ht & Hs1 & Hs2 & -> & ->).
    apply list_elem_of_bind. exists r1. split; [|done].
    apply list_elem_of_bind. exists r2. split; [|done].
    rewrite decide_False by done.
    apply list_elem_of_bind. exists t. split; [|done].
    apply list_elem_of_bind. exists s1. split; [|done].
    apply list_elem_of_bind. exists s2. split; [|done].
    by apply list_elem_of_singleton.
Qed.

(** A recorded argument is never also a recorded counter-argument. *)
Lemma possible_entries_oriented stop x y x' y' :
  (x, y) ∈ possible_entries stop → (x', y') ∈ possible_entries stop → x ≠ y'.
Proof.
  intros (r1 & r2 & t & s1 & s2 & _ & _ & _ & _ & Hs1 & _ & -> & _)
           %elem_of_possible_entries.
  intros (r1' & r2' & t' & s1' & s2' & _ & _ & _ & _ & _ & Hs2' & _ & ->)
           %elem_of_possible_entries.
  by apply args_differ.
Qed.
End Entries.

Section Counting.
#[local] Open Scope nat_scope.

Lemma sum_list_insert (l : list nat) i a b :
  l !! i = Some a → sum_list (<[i := b]> l) + a = sum_list l + b.
Proof.
  revert i. induction l as [|z l IH]; intros [|i] Hi; try done.
  - injection Hi as ->. change (b + sum_list l + a = a + sum_list l + b). lia.
  - change (z + sum_list (<[i := b]> l) + a = z + sum_list l + b).
    specialize (IH i Hi). lia.
Qed.

Lemma distinct_entries_snoc_old h e :
  e ∈ h → distinct_entries (h ++ [e]) = distinct_entries h.
Proof.
  intros He. unfold distinct_entries. rewrite list_to_set_snoc_L.
  f_equal. apply (elem_of_list_to_set (C := gset (string * string))) in He.
  set_solver.
Qed.

Lemma distinct_entries_snoc_new h e :
  e ∉ h → distinct_entries (h ++ [e]) = S (distinct_entries h).
Proof.
  intros He. unfold distinct_entries. rewrite list_to_set_snoc_L.
  rewrite size_union by (rewrite disjoint_singleton_r, elem_of_list_to_set; done).
  rewrite size_singleton. lia.
Qed.
End Counting.

Section RunInvariant.
#[local] Open Scope nat_scope.
Context {tensor : Type}.
Variable encode : string → tensor.
Variable pytorch_cos_sim : tensor → tensor → float.
Implicit Types (s self : DebateEngine) (d : debate) (rnd : draws) (v : script).

Lemma run_inv_init v uuid4 uniform :
  run_inv encode pytorch_cos_sim v uuid4 uniform
    (DebateEngine_init uuid4 uniform).
Proof.
  split; cbn [DebateEngine_init agents knowledge_graph debate_history].
  - intros k a Hk. rewrite list_lookup_imap in Hk.
    destruct (ROLES !! k); [|done]. by injection Hk as <-.
  - done.
  - intros a b Ha Hb. exfalso.
    apply list_elem_of_lookup in Ha as [k Hk]. rewrite list_lookup_imap in Hk.
    destruct (ROLES !! k); [|done]. injection Hk as <-.
    by apply elem_of_nil in Hb.
  - constructor.
  - intros x y. unfold Nx.weight, Nx.empty. rewrite lookup_empty. cbn.
    split; [by intros [? ?]|]. by intros [?%elem_of_nil|?%elem_of_nil].
  - by intros x y ?%elem_of_nil.
  - unfold Nx.degree_sum, Nx.empty. by rewrite map_fold_empty.
  - intros n. unfold Nx.empty. rewrite dom_empty_L. split; [set_solver|].
    by intros [m [?%elem_of_nil|?%elem_of_nil]].
Qed.

(** The two sampled agents of the eight-agent engine differ in role. *)
Lemma sampled_roles_differ stop s d :
  engine_inv s → synthesized encode pytorch_cos_sim stop s d →
  role (a1 d) ≠ role (a2 d).
Proof.
  intros [Hr _ _ _] [H1 H2 Hne _ _ _ _] Heq. apply Hne.
  assert (NoDup ROLES) as Hnd by (apply (bool_decide_unpack _); by vm_compute).
  rewrite <- Hr in Hnd.
  eapply (NoDup_lookup _ _ _ (role (a1 d)) Hnd);
    rewrite list_lookup_fmap, ?H1, ?H2; cbn; congruence.
Qed.

(** The pair a cycle records is one of the possible entries. *)
Lemma synthesized_entry v s d :
  engine_inv s → synthesized encode pytorch_cos_sim (stop_of v) s d →
  (arg1 d, arg2 d) ∈ possible_entries (stop_of v).
Proof.
  intros Hinv Hd.
  pose proof (sampled_roles_differ _ s d Hinv Hd) as Hroles.
  pose proof Hd as [H1 H2 _ Ht (s1 & Hs1 & Ha1) (s2 & Hs2 & Ha2) _].
  apply elem_of_possible_entries.
  exists (role (a1 d)), (role (a2 d)), (topic d), s1, s2.
  split_and!; try done; by eapply role_in_ROLES.
Qed.

(** One cycle keeps the run invariant. *)
Lemma run_inv_evolve v uuid4 uniform s d :
  engine_inv s → run_inv encode pytorch_cos_sim v uuid4 uniform s →
  synthesized encode pytorch_cos_sim (stop_of v) s d →
  run_inv encode pytorch_cos_sim v uuid4 uniform (evolve s d).
Proof.
  intros Hinv [Hag Hbel Hauth Hent Hedg Hwei Hdeg Hnod] Hd.
  pose proof (synthesized_entry v s d Hinv Hd) as Hentry.
  pose proof (sampled_roles_differ _ s d Hinv Hd) as Hroles.
  pose proof Hd as [H1 H2 Hne Ht (s1 & Hs1 & Ha1) (s2 & Hs2 & Ha2) Hsim].
  rewrite Forall_forall in Hent.
  assert (∀ x y, (x, y) ∈ debate_history s → (y, x) ∈ debate_history s → False)
    as Horient.
  { intros x y Hxy Hyx.
    exact (possible_entries_oriented _ x y y x (Hent _ Hxy) (Hent _ Hyx) eq_refl). }
  assert (∀ x, (x, arg1 d) ∈ debate_history s → False) as Hno1.
  { intros x Hx.
    exact (possible_entries_oriented _ _ _ x _ Hentry (Hent _ Hx) eq_refl). }
  assert (∀ y, (arg2 d, y) ∈ debate_history s → False) as Hno2.
  { intros y Hy.
    exact (possible_entries_oriented _ _ y _ _ (Hent _ Hy) Hentry eq_refl). }
  assert (arg1 d ≠ arg2 d) as Hdiff.
  { exact (possible_entries_oriented _ _ _ _ _ Hentry Hentry). }
  split.
  - (* identities and untouched adaptabilities *)
    intros k a. rewrite agents_evolve.
    destruct (Py.gt (similarity d) 0.7).
    + destruct (decide (k = pos1 d)) as [->|Hk].
      * rewrite list_lookup_insert_eq by (by eapply lookup_lt_Some).
        intros [= <-]. cbn [adopt id beliefs adaptability].
        split; [by apply (Hag _ _ H1)|]. by intros [_ [=]]%app_nil.
      * rewrite list_lookup_insert_ne by done. apply Hag.
    + destruct (decide (k = pos2 d)) as [->|Hk].
      * rewrite list_lookup_insert_eq by (by eapply lookup_lt_Some).
        intros [= <-]. cbn [adopt id beliefs adaptability].
        split; [by apply (Hag _ _ H2)|]. by intros [_ [=]]%app_nil.
      * rewrite list_lookup_insert_ne by done. apply Hag.
  - (* one belief per cycle *)
    cbn [evolve debate_history]. rewrite length_app. cbn [length].
    rewrite agents_evolve.
    destruct (Py.gt (similarity d) 0.7); rewrite list_fmap_insert.
    + pose proof (sum_list_insert (length ∘ beliefs <$> agents s) (pos1 d)
                    (length (beliefs (a1 d)))
                    ((length ∘ beliefs) (adopt (a1 d) (arg2 d)
                       (Py.min 1.0 (adaptability (a1 d) + 0.1))))) as Hsum.
      rewrite list_lookup_fmap, H1 in Hsum. specialize (Hsum eq_refl).
      cbn [adopt beliefs compose] in Hsum. rewrite length_app in Hsum.
      cbn [length] in Hsum. cbn [compose adopt beliefs]. rewrite length_app.
      cbn [length]. lia.
    + pose proof (sum_list_insert (length ∘ beliefs <$> agents s) (pos2 d)
                    (length (beliefs (a2 d)))
                    ((length ∘ beliefs) (adopt (a2 d) (arg1 d)
                       (Py.max 0.1 (adaptability (a2 d) - 0.1))))) as Hsum.
      rewrite list_lookup_fmap, H2 in Hsum. specialize (Hsum eq_refl).
      cbn [adopt beliefs compose] in Hsum. rewrite length_app in Hsum.
      cbn [length] in Hsum. cbn [compose adopt beliefs]. rewrite length_app.
      cbn [length]. lia.
  - (* where beliefs come from *)
    assert (∀ a b, a ∈ agents s → b ∈ beliefs a →
              (∃ e, e ∈ debate_history (evolve s d) ∧ (b = e.1 ∨ b = e.2))
              ∧ ∃ r, r ∈ ROLES ∧ r ≠ role a ∧ authored_by (stop_of v) r b)
      as Hold.
    { intros a b Ha Hb. destruct (Hauth a b Ha Hb) as [(e & He & Hbe) Hr].
      split; [|done]. exists e. split; [|done].
      cbn [evolve debate_history]. apply elem_of_app. by left. }
    intros a b Ha Hb. rewrite agents_evolve in Ha.
    apply list_elem_of_lookup in Ha as [k Hk].
    destruct (Py.gt (similarity d) 0.7).
    + destruct (decide (k = pos1 d)) as [->|Hkne].
      * rewrite list_lookup_insert_eq in Hk by (by eapply lookup_lt_Some).
        injection Hk as <-. cbn [adopt beliefs role] in Hb |- *.
        apply elem_of_app in Hb as [Hb|Hb%list_elem_of_singleton].
        { apply Hold; [|done]. by eapply list_elem_of_lookup_2. }
        subst b. split.
        { exists (arg1 d, arg2 d). split; [|by right].
          cbn [evolve debate_history]. apply elem_of_app. right.
          by apply list_elem_of_singleton. }
        exists (role (a2 d)). split; [by eapply role_in_ROLES|].
        split; [done|]. exists (topic d), s2. split; [done|]. by right.
      * rewrite list_lookup_insert_ne in Hk by done.
        apply Hold; [|done]. by eapply list_elem_of_lookup_2.
    + destruct (decide (k = pos2 d)) as [->|Hkne].
      * rewrite list_lookup_insert_eq in Hk by (by eapply lookup_lt_Some).
        injection Hk as <-. cbn [adopt beliefs role] in Hb |- *.
        apply elem_of_app in Hb as [Hb|Hb%list_elem_of_singleton].
        { apply Hold; [|done]. by eapply list_elem_of_lookup_2. }
        subst b. split.
        { exists (arg1 d, arg2 d). split; [|by left].
          cbn [evolve debate_history]. apply elem_of_app. right.
          by apply list_elem_of_singleton. }
        exists (role (a1 d)). split; [by eapply role_in_ROLES|].
        split; [done|]. exists (topic d), s1. split; [done|]. by left.
      * rewrite list_lookup_insert_ne in Hk by done.
        apply Hold; [|done]. by eapply list_elem_of_lookup_2.
  - (* the entries are possible ones *)
    cbn [evolve debate_history]. apply Forall_app. split.
    + by apply Forall_forall.
    + constructor; [done|constructor].
  - (* edges and history entries *)
    intros x y. cbn [evolve knowledge_graph debate_history].
    rewrite weight_add_edge, !elem_of_app, !list_elem_of_singleton.
    case_decide as Hc.
    + split; [|by eauto]. intros _.
      destruct Hc as [[-> ->]|[-> ->]]; [left|right]; by right.
    + rewrite Hedg. split; [tauto|].
      intros [[?|[= -> ->]]|[?|[= -> ->]]]; try tauto.
  - (* weights *)
    intros x y. cbn [evolve knowledge_graph debate_history].
    rewrite !weight_add_edge, elem_of_app, list_elem_of_singleton.
    intros [Hxy|[= -> ->]].
    + destruct (Hwei x y Hxy) as [Hw1 Hw2].
      repeat case_decide; try done.
      all: repeat match goal with
             | H : _ ∨ _ |- _ => destruct H
             | H : _ ∧ _ |- _ => destruct H
             end; subst; try (by rewrite Hsim); exfalso; eauto.
    + rewrite !decide_True by tauto. by rewrite Hsim.
  - (* the degree sum *)
    cbn [evolve knowledge_graph debate_history].
    destruct (decide ((arg1 d, arg2 d) ∈ debate_history s)) as [Hin|Hnin].
    + rewrite distinct_entries_snoc_old by done.
      rewrite degree_sum_add_edge_present; [done|..].
      * destruct (Hwei _ _ Hin) as [-> _]. eauto.
      * destruct (Hwei _ _ Hin) as [_ ->]. eauto.
    + rewrite distinct_entries_snoc_new by done.
      rewrite degree_sum_add_edge_fresh; [lia|..|done].
      * apply eq_None_not_Some. rewrite Hedg. intros [?|?]; eauto.
      * apply eq_None_not_Some. rewrite Hedg. intros [?|?]; eauto.
  - (* the nodes *)
    intros n. cbn [evolve knowledge_graph debate_history].
    rewrite dom_add_edge, elem_of_union, Hnod. split.
    + intros [Hn|[m Hm]].
      * apply elem_of_union in Hn as [->%elem_of_singleton| ->%elem_of_singleton].
        { exists (arg2 d). left. apply elem_of_app. right.
          by apply list_elem_of_singleton. }
        { exists (arg1 d). right. apply elem_of_app. right.
          by apply list_elem_of_singleton. }
      * exists m. rewrite !elem_of_app. tauto.
    + intros [m Hm]. rewrite !elem_of_app, !list_elem_of_singleton in Hm.
      destruct Hm as [[Hm|[= -> ->]]|[Hm|[= -> ->]]].
      * right. exists m. by left.
      * left. apply elem_of_union. left. by apply elem_of_singleton.
      * right. exists m. by right.
      * left. apply elem_of_union. right. by apply elem_of_singleton.
Qed.

(** Every run of either script returns, in an engine that satisfies both
    invariants and has one history entry per cycle. *)
Lemma run_run_inv v uuid4 uniform rnds :
  ∃ s, run encode pytorch_cos_sim v uuid4 uniform rnds = Returned s
     ∧ engine_inv s
     ∧ run_inv encode pytorch_cos_sim v uuid4 uniform s
     ∧ length (debate_history s) = length rnds.
Proof.
  destruct (main_loop_invariant encode pytorch_cos_sim v
              (λ n s, engine_inv s
                      ∧ run_inv encode pytorch_cos_sim v uuid4 uniform s
                      ∧ length (debate_history s) = n))
    with (rnds := rnds) (n := 0) (s0 := DebateEngine_init uuid4 uniform)
    as (s & Hs & Hinv & Hrun & Hlen).
  - intros n s (Hinv & _ & _). rewrite (length_agents_inv s Hinv). lia.
  - intros n s d (Hinv & Hrun & Hn) Hd. split_and!.
    + by eapply engine_inv_evolve.
    + by eapply run_inv_evolve.
    + cbn [evolve debate_history]. rewrite length_app. cbn [length]. lia.
  - split_and!; [apply engine_inv_init|apply run_inv_init|done].
  - by exists s.
Qed.
End RunInvariant.

Section Authors.
#[local] Open Scope nat_scope.

(** The eight roles start with eight different letters, and a synthesized
    text starts with the role of its author. *)
Lemma roles_head r r' :
  r ∈ ROLES → r' ∈ ROLES → head_char r = head_char r' → r = r'.
Proof.
  intros Hr Hr'. unfold ROLES in Hr, Hr'.
  elem_cases Hr; elem_cases Hr'; by intros [=].
Qed.

Lemma authored_head stop r b :
  r ∈ ROLES → authored_by stop r b → head_char b = head_char r.
Proof.
  intros Hr (t & s & _ & [[_ ->]|[_ ->]]); unfold ROLES in Hr;
    elem_cases Hr; reflexivity.
Qed.

Lemma authored_by_inj stop r r' b :
  r ∈ ROLES → r' ∈ ROLES →
  authored_by stop r b → authored_by stop r' b → r = r'.
Proof.
  intros Hr Hr' Hb Hb'. apply roles_head; [done..|].
  by rewrite <- (authored_head stop r b), <- (authored_head stop r' b).
Qed.

Lemma size_list_to_set_le (l : list (string * string)) :
  size (list_to_set l : gset (string * string)) ≤ length l.
Proof.
  induction l as [|x l IH]; [done|]. cbn [list_to_set length].
  destruct (decide (x ∈ (list_to_set l : gset (string * string)))) as [Hx|Hx].
  - replace ({[x]} ∪ list_to_set l) with (list_to_set l : gset (string * string))
      by set_solver. lia.
  - rewrite size_union by set_solver. rewrite size_singleton. lia.
Qed.

Lemma distinct_entries_bound stop h :
  Forall (λ e, e ∈ possible_entries stop) h →
  distinct_entries h ≤ length (possible_entries stop).
Proof.
  intros Hh. unfold distinct_entries.
  etrans; [|apply size_list_to_set_le].
  apply subseteq_size. intros e He%elem_of_list_to_set.
  apply elem_of_list_to_set. by eapply Forall_forall in Hh.
Qed.

Lemma length_possible_entries v : length (possible_entries (stop_of v)) = 3528.
Proof. destruct v; by vm_compute. Qed.
End Authors.

Section Files.
Implicit Types (w : world) (h : list (string * string)).

Lemma fwrite_entries path h : ∀ w c,
  files w !! path = Some c →
  let w' := foldl (λ w entry,
                     fwrite path
                       (entry.1 +:+ LF +:+ entry.2 +:+ LF +:+ LF) w) w h in
  stdout w' = stdout w ∧ figures w' = figures w
  ∧ files w' = <[path := c +:+ write_history h]> (files w).
Proof.
  induction h as [|e h IH]; intros w c Hc; cbn [foldl write_history foldr].
  - split; [done|]. split; [done|].
    rewrite append_nil_r. by rewrite insert_id.
  - destruct (IH (fwrite path (e.1 +:+ LF +:+ e.2 +:+ LF +:+ LF) w)
                 (c +:+ e.1 +:+ LF +:+ e.2 +:+ LF +:+ LF))
      as (Hout & Hfig & Hfiles).
    { cbn [fwrite files]. rewrite lookup_insert_eq, Hc. done. }
    split; [done|]. split; [done|].
    rewrite Hfiles. cbn [fwrite files]. rewrite insert_insert_eq.
    f_equal. fold (write_history h). by rewrite !append_assoc.
Qed.

(** The dump leaves one file behind, the history written out; nothing is
    printed or drawn, and the other files stay. *)
Lemma dump_history_spec debate w :
  stdout (dump_history debate w) = stdout w
  ∧ figures (dump_history debate w) = figures w
  ∧ files (dump_history debate w)
    = <["debate_history.txt" := write_history (debate_history debate)]>
        (files w).
Proof.
  unfold dump_history.
  destruct (fwrite_entries "debate_history.txt" (debate_history debate)
              (fopen_w "debate_history.txt" w) "")
    as (Hout & Hfig & Hfiles).
  { cbn [fopen_w files]. by rewrite lookup_insert_eq. }
  split; [done|]. split; [done|].
  rewrite Hfiles. cbn [fopen_w files]. by rewrite insert_insert_eq.
Qed.
End Files.

Section Hundreds.
#[local] Open Scope nat_scope.





End Hundreds.

Section Loops.
#[local] Open Scope nat_scope.
Context {tensor : Type}.
Variable encode : string → tensor.
Variable pytorch_cos_sim : tensor → tensor → float.
Implicit Types (s : DebateEngine) (w : world).


End Loops.

Section Direction.
#[local] Open Scope float_scope.

(** On [0.1, 1.0] adding 0.1 never gives less ... *)
Lemma add_tenth_ge a :
  (0.1 <=? a) = true → (a <=? 1.0) = true → (a <=? a + 0.1) = true.
Proof.
  intros Hlo Hhi.
  destruct (unit_interval_spec a Hlo Hhi) as (m & e & Ha & He & HA & Hm).
  rewrite leb_spec, (add_tenth_spec a m e), Ha by (done || lia).
  destruct (Zpos m * 2 ^ (e + 56) + 7205759403792794)%Z as [|M|M] eqn:HM; try lia.
  cbn [binary_normalize].
  assert (0 < 2 ^ (e + 56))%Z as HT by (apply Z.pow_pos_nonneg; lia).
  assert (e + 108 < Zpos (digits2_pos M))%Z as Hdl.
  { apply digits2_pos_gt; [lia|].
    replace (e + 108)%Z with (52 + (e + 56))%Z by lia.
    rewrite Z.pow_add_r by lia. change (2 ^ 52)%Z with 4503599627370496%Z. nia. }
  assert (Zpos (digits2_pos M) ≤ 57)%Z by (apply digits2_pos_le; simpl; lia).
  destruct (binary_round_shape M (-56)) as (m' & e' & -> & Hs); [lia..|].
  set (d := Zpos (digits2_pos M)) in *.
  apply SFleb_pos.
  destruct Hs as [(?&?&?)|[(?&He'&Hq&?)|(?&?&Hm'&?)]]; [lia| |lia].
  assert (e < e' ∨ e = e')%Z as [|Hee] by lia; [by left|right].
  split; [done|].
  replace (d - 53)%Z with (e + 56)%Z in Hq by lia.
  assert (Zpos m ≤ Zpos M / 2 ^ (e + 56))%Z
    by (apply Z.div_le_lower_bound; nia).
  lia.
Qed.

(** ... and subtracting 0.1 never gives more. *)
Lemma sub_tenth_le a :
  (0.1 <=? a) = true → (a <=? 1.0) = true → (a - 0.1 <=? a) = true.
Proof.
  intros Hlo Hhi.
  destruct (unit_interval_spec a Hlo Hhi) as (m & e & Ha & He & HA & Hm).
  rewrite leb_spec, (sub_tenth_spec a m e), Ha by (done || lia).
  destruct (Zpos m * 2 ^ (e + 56) - 7205759403792794)%Z as [|M|M] eqn:HM;
    try lia; [done|].
  cbn [binary_normalize].
  assert (0 < 2 ^ (e + 56))%Z as HT by (apply Z.pow_pos_nonneg; lia).
  assert (2 ^ (e + 56) ≤ 2 ^ 4)%Z as HT4 by (apply Z.pow_le_mono_r; lia).
  change (2 ^ 4)%Z with 16%Z in HT4.
  assert (Zpos (digits2_pos M) ≤ e + 109)%Z as Hdu.
  { apply digits2_pos_le; [lia|].
    replace (e + 109)%Z with (53 + (e + 56))%Z by lia.
    rewrite Z.pow_add_r by lia. change (2 ^ 53)%Z with 9007199254740992%Z. nia. }
  assert (Zpos (digits2_pos M) ≤ 56)%Z by (apply digits2_pos_le; simpl; lia).
  destruct (binary_round_shape M (-56)) as (m' & e' & -> & Hs); [lia..|].
  set (d := Zpos (digits2_pos M)) in *.
  apply SFleb_pos.
  change (2 ^ 52)%Z with 4503599627370496%Z in Hs.
  change (2 ^ 53)%Z with 9007199254740992%Z in Hs.
  destruct Hs as [(Hd&He'&Hx)|[(Hd&He'&Hq&_)|(Hd&He'&Hm'&Hq)]].
  - assert (e' < e ∨ e' = e)%Z as [|Hee] by lia; [by left|right].
    split; [done|]. assert (e = -56)%Z as -> by lia.
    assert (d = 53)%Z as Hd53 by lia. rewrite Hd53 in Hx. simpl in HM, Hx. lia.
  - assert (e' < e ∨ e' = e)%Z as [|Hee] by lia; [by left|right].
    split; [done|].
    replace (d - 53)%Z with (e + 56)%Z in Hq by lia.
    assert (Zpos M / 2 ^ (e + 56) < Zpos m)%Z
      by (apply Z.div_lt_upper_bound; nia).
    lia.
  - assert (d < e + 109 ∨ d = e + 109)%Z as [Hlt|Heq] by lia.
    + assert (e' < e ∨ e' = e)%Z as [|Hee] by lia; [by left|right]. lia.
    + exfalso. replace (d - 53)%Z with (e + 56)%Z in Hq by lia.
      assert (Zpos M / 2 ^ (e + 56) < Zpos m)%Z
        by (apply Z.div_lt_upper_bound; nia).
      lia.
Qed.

(** The increasing update never lowers a value of the clamping range, the
    decreasing update never raises one. *)
Lemma min_ge a :
  between 0.1 1.0 a → Py.le a (Py.min 1.0 (a + 0.1)) = true.
Proof.
  intros [Hlo Hhi]. unfold Py.min.
  destruct (Py.lt (a + 0.1) 1.0); [by apply add_tenth_ge|done].
Qed.

Lemma max_le a :
  between 0.1 1.0 a → Py.le (Py.max 0.1 (a - 0.1)) a = true.
Proof.
  intros [Hlo Hhi]. unfold Py.max.
  destruct (Py.gt (a - 0.1) 0.1); [by apply sub_tenth_le|done].
Qed.

Lemma le_refl_between a : between 0.1 1.0 a → Py.le a a = true.
Proof.
  intros [Hlo Hhi].
  destruct (unit_interval_spec a Hlo Hhi) as (m & e & Ha & _).
  unfold Py.le. rewrite leb_spec, Ha. apply SFleb_pos. lia.
Qed.
End Direction.

(* ===================================================================== *)
(** ** Further properties: the run, the main blocks, the updates *)
(* ===================================================================== *)

(** X1.  In the engine a run of either script returns there are still the
    eight agents of the constructor, position by position: the [k]-th has
    the identifier of the [k]-th [uuid.uuid4()] call and the [k]-th role,
    and as long as it holds no belief its adaptability is still its initial
    draw. *)
Theorem X1_agents_keep_identity {tensor : Type} (encode : string → tensor)
    (pytorch_cos_sim : tensor → tensor → float)
    (v : script) (uuid4 : nat → string) (uniform : nat → float)
    (rnds : list draws) :
  ∃ s, run encode pytorch_cos_sim v uuid4 uniform rnds = Returned s
     ∧ length (agents s) = 8%nat
     ∧ ∀ k r, ROLES !! k = Some r →
         ∃ a, agents s !! k = Some a ∧ id a = uuid4 k ∧ role a = r
              ∧ (beliefs a = [] → adaptability a = uniform k).
Proof.
  destruct (run_run_inv encode pytorch_cos_sim v uuid4 uniform rnds)
    as (s & Hs & Hinv & Hrun & _).
  exists s. split; [done|]. split; [by apply length_agents_inv|].
  intros k r Hk. pose proof (inv_roles s Hinv) as Hroles.
  assert ((role <$> agents s) !! k = Some r) as Hr by (by rewrite Hroles).
  rewrite list_lookup_fmap in Hr.
  destruct (agents s !! k) as [a|] eqn:Ha; [|done].
  injection Hr as Hr. exists a. split; [done|].
  destruct (rinv_agent _ _ _ _ _ _ Hrun k a Ha) as [Hid Hfresh]. done.
Qed.

(** X2.  Every cycle of a run leaves exactly one belief behind: in the
    engine the run returns, the belief lists of all agents together hold as
    many entries as cycles were run, which is also the length of the
    history. *)
Theorem X2_one_belief_per_cycle {tensor : Type} (encode : string → tensor)
    (pytorch_cos_sim : tensor → tensor → float)
    (v : script) (uuid4 : nat → string) (uniform : nat → float)
    (rnds : list draws) :
  ∃ s, run encode pytorch_cos_sim v uuid4 uniform rnds = Returned s
     ∧ sum_list (length ∘ beliefs <$> agents s) = length rnds
     ∧ sum_list (length ∘ beliefs <$> agents s) = length (debate_history s).
Proof.
  destruct (run_run_inv encode pytorch_cos_sim v uuid4 uniform rnds)
    as (s & Hs & Hinv & Hrun & Hlen).
  exists s. split; [done|].
  pose proof (rinv_beliefs _ _ _ _ _ _ Hrun). split; congruence.
Qed.

(** X3.  Agents only ever adopt what an opponent said: after any run, each
    belief of an agent is one of the two arguments of a recorded debate, it
    was synthesized for another role, and it is not a text synthesized for
    the agent's own role. *)
Theorem X3_beliefs_come_from_opponents {tensor : Type}
    (encode : string → tensor) (pytorch_cos_sim : tensor → tensor → float)
    (v : script) (uuid4 : nat → string) (uniform : nat → float)
    (rnds : list draws) :
  ∃ s, run encode pytorch_cos_sim v uuid4 uniform rnds = Returned s
     ∧ ∀ a b, a ∈ agents s → b ∈ beliefs a →
         (∃ e, e ∈ debate_history s ∧ (b = e.1 ∨ b = e.2))
         ∧ (∃ r, r ∈ ROLES ∧ r ≠ role a ∧ authored_by (stop_of v) r b)
         ∧ ¬ authored_by (stop_of v) (role a) b.
Proof.
  destruct (run_run_inv encode pytorch_cos_sim v uuid4 uniform rnds)
    as (s & Hs & Hinv & Hrun & _).
  exists s. split; [done|]. intros a b Ha Hb.
  destruct (rinv_author _ _ _ _ _ _ Hrun a b Ha Hb) as [He (r & Hr & Hne & Hau)].
  split; [done|]. split; [by exists r|].
  intros Hown. apply Hne.
  apply (authored_by_inj (stop_of v) r (role a) b); [done| |done..].
  apply list_elem_of_lookup in Ha as [k Hk]. by eapply role_in_ROLES.
Qed.

(** X4.  After any run the knowledge graph mirrors the history: two texts
    are joined by an edge exactly when they are the two arguments of a
    recorded debate, in either order; the weight of that edge, read in
    either direction, is the similarity of the two texts (so adding the
    edge again never changes it); and the nodes are exactly the texts that
    occur in the history. *)
Theorem X4_edges_mirror_history {tensor : Type} (encode : string → tensor)
    (pytorch_cos_sim : tensor → tensor → float)
    (v : script) (uuid4 : nat → string) (uniform : nat → float)
    (rnds : list draws) :
  ∃ s, run encode pytorch_cos_sim v uuid4 uniform rnds = Returned s
     ∧ (∀ x y, is_Some (Nx.weight (knowledge_graph s) x y)
               ↔ (x, y) ∈ debate_history s ∨ (y, x) ∈ debate_history s)
     ∧ (∀ x y, (x, y) ∈ debate_history s →
          Nx.weight (knowledge_graph s) x y
            = Some (pytorch_cos_sim (encode x) (encode y))
          ∧ Nx.weight (knowledge_graph s) y x
            = Some (pytorch_cos_sim (encode x) (encode y)))
     ∧ (∀ n, n ∈ dom (knowledge_graph s)
             ↔ ∃ m, (n, m) ∈ debate_history s ∨ (m, n) ∈ debate_history s).
Proof.
  destruct (run_run_inv encode pytorch_cos_sim v uuid4 uniform rnds)
    as (s & Hs & Hinv & Hrun & _).
  exists s. split; [done|]. destruct Hrun. done.
Qed.

(** X5.  After any run the graph has exactly as many edges as the history
    has different entries, and never more than 3528, the number of pairs of
    arguments the templates can produce, however long the run. *)
Theorem X5_edges_count_distinct_entries {tensor : Type}
    (encode : string → tensor) (pytorch_cos_sim : tensor → tensor → float)
    (v : script) (uuid4 : nat → string) (uniform : nat → float)
    (rnds : list draws) :
  ∃ s, run encode pytorch_cos_sim v uuid4 uniform rnds = Returned s
     ∧ Nx.number_of_edges (knowledge_graph s)
       = distinct_entries (debate_history s)
     ∧ (Nx.number_of_edges (knowledge_graph s) ≤ 3528)%nat.
Proof.
  destruct (run_run_inv encode pytorch_cos_sim v uuid4 uniform rnds)
    as (s & Hs & Hinv & Hrun & _).
  exists s. split; [done|].
  assert (Nx.number_of_edges (knowledge_graph s)
          = distinct_entries (debate_history s)) as Heq.
  { unfold Nx.number_of_edges. rewrite (rinv_degree _ _ _ _ _ _ Hrun).
    rewrite Nat.mul_comm. by apply Nat.div_mul. }
  split; [done|]. rewrite Heq, <- (length_possible_entries v).
  apply distinct_entries_bound. by destruct Hrun.
Qed.

(** X6.  The history dump prints and draws nothing and touches one file:
    [debate_history.txt] then holds the history written out, whatever it
    held before, and every other file is as it was; dumping over an older
    dump leaves the same world as dumping once. *)
Theorem X6_dump_history_file (debate debate' : DebateEngine) (w : world) :
  stdout (dump_history debate w) = stdout w
  ∧ figures (dump_history debate w) = figures w
  ∧ files (dump_history debate w)
    = <["debate_history.txt" := write_history (debate_history debate)]>
        (files w)
  ∧ (∀ path, path ≠ "debate_history.txt" →
       files (dump_history debate w) !! path = files w !! path)
  ∧ dump_history debate (dump_history debate' w) = dump_history debate w.
Proof.
  destruct (dump_history_spec debate w) as (Hout & Hfig & Hfiles).
  split; [done|]. split; [done|]. split; [done|]. split.
  - intros path Hne. rewrite Hfiles. by rewrite lookup_insert_ne.
  - destruct (dump_history_spec debate' w) as (Hout' & Hfig' & Hfiles').
    destruct (dump_history_spec debate (dump_history debate' w))
      as (Hout2 & Hfig2 & Hfiles2).
    rewrite Hout' in Hout2. rewrite Hfig' in Hfig2.
    rewrite Hfiles', insert_insert_eq in Hfiles2.
    destruct (dump_history debate (dump_history debate' w)),
      (dump_history debate w). cbn in *. congruence.
Qed.



(** X9.  The direction of the update.  In a cycle of an engine with at
    least two agents, all with adaptabilities in [0.1, 1.0], no adaptability
    goes down when the similarity exceeds 0.7, and none goes up otherwise:
    [min(1.0, a + 0.1)] is never below [a] and [max(0.1, a - 0.1)] never
    above it, in binary64. *)
Theorem X9_update_direction {tensor : Type} (encode : string → tensor)
    (pytorch_cos_sim : tensor → tensor → float)
    (v : script) (self : DebateEngine) (rnd : draws) :
  (2 ≤ length (agents self))%nat → clamped self →
  ∃ d self',
    synthesize encode pytorch_cos_sim (stop_of v) self rnd = Returned d
    ∧ run_debate_cycle encode pytorch_cos_sim v self rnd = Returned self'
    ∧ ∀ k a a', agents self !! k = Some a → agents self' !! k = Some a' →
        if Py.gt (similarity d) 0.7
        then Py.le (adaptability a) (adaptability a') = true
        else Py.le (adaptability a') (adaptability a) = true.
Proof.
  intros Hn Hc.
  destruct (run_debate_cycle_Returned encode pytorch_cos_sim v self rnd Hn)
    as (d & Hs & Hd & Hcycle).
  exists d, (evolve self d). split; [done|]. split; [done|].
  intros k a a' Ha Ha'.
  assert (between 0.1 1.0 (adaptability a)) as Hb
    by (by eapply (Forall_lookup_1 _ _ _ _ Hc)).
  pose proof Hd as [H1 H2 _ _ _ _ _].
  rewrite agents_evolve in Ha'.
  destruct (Py.gt (similarity d) 0.7).
  - destruct (decide (k = pos1 d)) as [->|Hk].
    + rewrite list_lookup_insert_eq in Ha' by (by eapply lookup_lt_Some).
      injection Ha' as <-. cbn [adopt adaptability].
      assert (a = a1 d) as -> by congruence. by apply min_ge.
    + rewrite list_lookup_insert_ne in Ha' by done.
      assert (a' = a) as -> by congruence. by apply le_refl_between.
  - destruct (decide (k = pos2 d)) as [->|Hk].
    + rewrite list_lookup_insert_eq in Ha' by (by eapply lookup_lt_Some).
      injection Ha' as <-. cbn [adopt adaptability].
      assert (a = a2 d) as -> by congruence. by apply max_le.
    + rewrite list_lookup_insert_ne in Ha' by done.
      assert (a' = a) as -> by congruence. by apply le_refl_between.
Qed.

Lemma X9_update_direction_witness :
  ∃ d self',
    synthesize stub_encode (stub_cos_sim 0.75) (stop_of ai_engine)
      pair_engine_used rnd_zero = Returned d
    ∧ run_debate_cycle stub_encode (stub_cos_sim 0.75) ai_engine
        pair_engine_used rnd_zero = Returned self'
    ∧ ∀ k a a', agents pair_engine_used !! k = Some a →
        agents self' !! k = Some a' →
        if Py.gt (similarity d) 0.7
        then Py.le (adaptability a) (adaptability a') = true
        else Py.le (adaptability a') (adaptability a) = true.
Proof.
  apply (X9_update_direction stub_encode (stub_cos_sim 0.75) ai_engine
           pair_engine_used rnd_zero).
  - vm_compute. lia.
  - unfold clamped, between. vm_compute. repeat constructor.
Defined.

(** X10.  A run that starts from the constructor as the scripts call it:
    when [random()] returns variates of [0.0, 1.0), the run of any number of
    cycles returns, every adaptability in the engine it returns lies in
    [0.1, 1.0], and that of an agent without beliefs still lies in
    [0.3, 0.9]. *)
Theorem X10_constructed_run_clamped {tensor : Type} (encode : string → tensor)
    (pytorch_cos_sim : tensor → tensor → float)
    (v : script) (uuid4 : nat → string) (random : nat → float)
    (rnds : list draws) :
  (∀ k, (k < 8)%nat →
     Py.le 0 (random k) = true ∧ Py.lt (random k) 1 = true) →
  ∃ s, run encode pytorch_cos_sim v uuid4
         (λ k, Py.uniform 0.3 0.9 (random k)) rnds = Returned s
     ∧ ∀ a, a ∈ agents s →
         between 0.1 1.0 (adaptability a)
         ∧ (beliefs a = [] → between 0.3 0.9 (adaptability a)).
Proof.
  intros Hvar.
  set (uniform := λ k, Py.uniform 0.3 0.9 (random k)).
  assert (∀ k, (k < 8)%nat → between 0.3 0.9 (uniform k)) as Hu.
  { intros k Hk. apply uniform_range; by apply Hvar. }
  destruct (run_clamped encode pytorch_cos_sim v uuid4 uniform rnds Hu)
    as (s & Hs & Hinv & Hc).
  destruct (run_run_inv encode pytorch_cos_sim v uuid4 uniform rnds)
    as (s' & Hs' & _ & Hrun & _).
  assert (s' = s) as -> by congruence.
  exists s. split; [done|]. intros a Ha.
  unfold clamped in Hc. rewrite Forall_forall in Hc. split; [by apply Hc|].
  intros Hfresh. apply list_elem_of_lookup in Ha as [k Hk].
  destruct (rinv_agent _ _ _ _ _ _ Hrun k a Hk) as [_ Hinit].
  rewrite (Hinit Hfresh). apply Hu.
  apply lookup_lt_Some in Hk. by rewrite (length_agents_inv s Hinv) in Hk.
Qed.

Lemma X10_constructed_run_clamped_witness :
  ∃ s, run stub_encode (stub_cos_sim 0.75) ai_engine_working example_uuid4
         (λ k, Py.uniform 0.3 0.9 (example_random k))
         [rnd_zero; rnd_other; rnd_zero] = Returned s
     ∧ ∀ a, a ∈ agents s →
         between 0.1 1.0 (adaptability a)
         ∧ (beliefs a = [] → between 0.3 0.9 (adaptability a)).
Proof.
  apply (X10_constructed_run_clamped stub_encode (stub_cos_sim 0.75)
           ai_engine_working example_uuid4 example_random).
  intros k Hk.
  do 8 (destruct k as [|k]; [by vm_compute|]). lia.
Defined.
